(** * futurecoder: the step verification engine of [backend/main/text.py]

    A shallow embedding of the step classes, of build-time normalization
    ([clean_step_class]) and of the per-submission dispatch
    ([Page.check_step], [Step.check_with_messages], [Step.tree_matches],
    [ExerciseStep.check], [ExerciseStep.generate_inputs]), followed by the
    properties of the specification that concern them.

    Python values are a small inductive type, exceptions are an error
    result, and every call the properties speak about (a check being run, a
    source text being parsed, a name looked up in the console, the test
    runner being entered) leaves an event in a write-only trace, so that
    "nothing further runs" is a statement about that trace. *)

From Stdlib Require Import Ascii.
From Stdlib Require OrderedTypeEx.
From stdpp Require Import base option list strings gmap sorting.

Open Scope string_scope.
Open Scope list_scope.
Set Warnings "-register-all".

(** ** Python values *)

(** A resolved type annotation, as [typing.get_type_hints] returns it. *)
Inductive pytype :=
  | TyInt | TyStr | TyBool
  | TyList (elt : pytype)
  | TyNamed (qualname : string).

(** A function object: [__name__], the parameters of its signature in order
    (each with its annotation, if any) and the annotation of its result. *)
Record function := {
  fn_name : string;
  fn_params : list (string * option pytype);
  fn_return : option pytype;
}.

Inductive pyval :=
  | PyNone
  | PyBool (b : bool)
  | PyInt (n : Z)
  | PyStr (s : string)
  | PyList (l : list pyval)
  | PyDict (d : list (string * pyval))
  | PyFunc (f : function)
  | PyMatch (matched : string)      (* an [re.Match] object *)
  | PyObject (class_name : string). (* any other object, default truthiness *)

Definition isinstance_dict (v : pyval) : bool :=
  match v with PyDict _ => true | _ => false end.

(** [inspect.isfunction]. *)
Definition isfunction (v : pyval) : bool :=
  match v with PyFunc _ => true | _ => false end.

(** [bool(v)]. *)
Definition truthy (v : pyval) : bool :=
  match v with
  | PyNone => false
  | PyBool b => b
  | PyInt n => negb (n =? 0)%Z
  | PyStr s => negb (String.eqb s EmptyString)
  | PyList l => match l with [] => false | _ => true end
  | PyDict d => match d with [] => false | _ => true end
  | PyFunc _ | PyMatch _ | PyObject _ => true
  end.

(** [v == b] for a [bool] [b]: booleans compare as the integers 0 and 1, and
    no other value (a dict in particular) equals a boolean. *)
Definition eq_bool (v : pyval) (b : bool) : bool :=
  match v with
  | PyBool b' => Bool.eqb b' b
  | PyInt n => (n =? (if b then 1 else 0))%Z
  | _ => false
  end.

(** [dict(message=text)]. *)
Definition message_dict (text : string) : pyval :=
  PyDict [("message", PyStr text)].

(** ** Exceptions, traces and the monad of the engine *)

Inductive exn :=
  | SyntaxError      (* with its subclasses [IndentationError] and [TabError] *)
  | AssertionError
  | AttributeError
  | TypeError
  | ValueError
  | OtherError (class_name : string).

Inductive res (A : Type) :=
  | Ok (a : A)
  | Raise (e : exn).
Arguments Ok {A} a.
Arguments Raise {A} e.

Inductive event :=
  | EvCheck (class_name : string)    (* [check()] of an instance of the class is entered *)
  | EvParse (source : string)        (* [ast.parse(source)] *)
  | EvLookup (name : string)         (* [console.locals] is consulted for the name *)
  | EvSignature (function_name : string) (* [inspect.signature] of the named function *)
  | EvCheckExercise                  (* [check_exercise] is entered: test cases run *)
  | EvGenerate (t : pytype)          (* [generate_for_type(t)] *)
  | EvExternal (what : string).      (* an effect of a collaborator or a custom check *)

(** A computation: the events it left, in order, and how it ended. *)
Definition run (A : Type) : Type := list event * res A.

Definition trace {A} (m : run A) : list event := m.1.
Definition outcome {A} (m : run A) : res A := m.2.

#[export] Instance run_ret : MRet run := λ A a, ([], Ok a).
#[export] Instance run_bind : MBind run := λ A B f m,
  match m.2 with
  | Ok a => (m.1 ++ (f a).1, (f a).2)
  | Raise e => (m.1, Raise e)
  end.
#[export] Instance run_fmap : FMap run := λ A B f m,
  (m.1, match m.2 with Ok a => Ok (f a) | Raise e => Raise e end).
#[export] Instance run_throw : MThrow exn run := λ A e, ([], Raise e).

Definition tell (e : event) : run () := ([e], Ok ()).

(** [assert c]. *)
Definition assert (c : bool) : run () :=
  if c then mret () else mthrow AssertionError.

(** [try: m except SyntaxError: handler]. *)
Definition except_SyntaxError {A} (m : run A) (handler : run A) : run A :=
  match m.2 with
  | Raise SyntaxError => (m.1 ++ handler.1, handler.2)
  | _ => m
  end.

(** [for x in l: body(x)]. *)
Fixpoint for_each {A} (l : list A) (body : A → run ()) : run () :=
  match l with
  | [] => mret ()
  | x :: l' => body x;; for_each l' body
  end.

(** [[body(x) for x in l]]. *)
Fixpoint for_list {A B} (l : list A) (body : A → run B) : run (list B) :=
  match l with
  | [] => mret []
  | x :: l' => y ← body x; ys ← for_list l' body; mret (y :: ys)
  end.

(** ** Submissions and step classes *)

(** The callables made of a function. *)
Inductive callable :=
  | Plain (f : function)        (* the function itself *)
  | Bound (f : function)        (* a method bound to an instance: [self.solution] *)
  | PartialNone (f : function). (* [partial(f, None)] *)

(** What [check_exercise] is given to run: the submitted source text
    ([functionise=True]) or a callable. *)
Inductive subject :=
  | SubjectSource (source : string)
  | SubjectCallable (c : callable).

(** The inputs of one test case as they are declared: named inputs, a tuple
    of positional inputs, or a single positional input. *)
Inductive test_inputs :=
  | InputsDict (d : list (string * pyval))
  | InputsTuple (l : list pyval)
  | InputsSingle (v : pyval).

(** The arguments a step instance is built from:
    [self.input, self.result, self.code_source, self.console = args]. *)
Record submission := {
  input : string;
  result : pyval;
  code_source : string;
  console_locals : gmap string pyval;
}.

(** Where [check] of a class comes from. *)
Inductive check_impl :=
  | VerbatimCheck                 (* [VerbatimStep.check] *)
  | ExerciseCheck                 (* [ExerciseStep.check] *)
  | CustomCheck (body : string → submission → run pyval).
      (* a [check] written in the class body, given [self.program] and the
         submission *)

(** The object a class body binds to [solution]: the function defined
    there and, for the case where it is called without arguments by
    [get_solution_function], the function that call returns. *)
Record solution_decl := {
  solution_def : function;
  solution_call : function;
}.

(** The attribute [hints]: one text, or a sequence of texts. *)
Inductive hints_attr :=
  | HintsText (s : string)
  | HintsList (l : list string).

(** The attributes that the class made of a message class and of the step
    it is nested in, [class inner_cls(inner_cls, cls)], finds in one of its
    two bases or in the other, depending on their own bases. *)
Inductive attribute :=
  | attr_check
  | attr_solution
  | attr_after_success
  | attr_expected_code_source.

#[export] Instance attribute_eq_dec : EqDecision attribute.
Proof. solve_decision. Defined.

(** The attributes of a step class. Author classes derive from [Step],
    [VerbatimStep] or [ExerciseStep], and from [MessageStep] when
    [is_message]; an attribute holds what attribute lookup on the class
    gives: [check] is [None] while only the abstract [Step.check] is found,
    [doc] is empty when there is no docstring, [dict_solution] is the entry
    [solution] of the class's own [__dict__] as declared and [solution] the
    attribute [cls.solution] (before normalization, what the bases give).

    [name] is the name under which the class is declared in the body of
    its page or step, which is the name [inspect.getmembers] lists it
    under; a class that normalization makes of a message class is bound to
    no name and keeps in [name] the name of the message class it is made
    of. [__name__] is the name of the class itself: the declared name for
    a declared class, the name in the class statement for a class made by
    normalization.

    [step_first], for a class nested in a step [cls]: the attributes that
    the method resolution order of [class inner_cls(inner_cls, cls)] finds
    first in a class of [cls] (a class that the two have in common
    included), and not in a class that only the nested class derives
    from. *)
Record step_attrs := {
  name : string;
  __name__ : string;
  text : string;
  doc : string;
  program : string;
  hints : hints_attr;
  tests : list (test_inputs * pyval);
  expected_code_source : option string;
  after_success : bool;
  program_in_text : bool;
  check : option check_impl;
  dict_solution : option solution_decl;
  solution : option function;
  is_message : bool;
  is_exercise : bool;
  step_first : list attribute;
}.

(** A normalized step class: its attributes and its message classes
    ([messages]); a message class has no messages of its own
    ([clean_step_class(inner_cls, clean_inner=False)] sets the empty list). *)
Record step_class := {
  attrs :> step_attrs;
  messages : list step_attrs;
}.

(** A class as its author declares it: its attributes and the step classes
    nested in its body, in the order of declaration. *)
Inductive class_decl :=
  | ClassDecl (cls : step_attrs) (members : list class_decl).

Definition decl_attrs (d : class_decl) : step_attrs :=
  match d with ClassDecl cls _ => cls end.

Definition decl_members (d : class_decl) : list class_decl :=
  match d with ClassDecl _ members => members end.

(** ** Pages *)

Record code_entry := {
  entry_step_name : string;
  entry_input : string;
  entry_source : string;
}.

(** A built page: the step classes found in its namespace and what
    [PageMeta.__init__] records about them. [page_dict] holds the step
    classes by the name under which attribute lookup on the page finds
    them. *)
Record page := {
  slug : string;
  page_dict : gmap string step_class;
  step_names : list string;
  step_texts : list string;
  final_text : string;
}.

(** What [getattr(cls, name)] finds on a page class: a step class, or one
    of the attributes that [PageMeta] and [Page] give every page. *)
Inductive page_attr :=
  | AttrStep (c : step_class)
  | AttrText (s : string)          (* a text: [final_text], [slug] *)
  | AttrTexts (l : list string)    (* a list: [step_names], [step_texts] *)
  | AttrMethod (method : string).  (* a class method of [Page], bound to the page *)

(** The class methods of [Page]. *)
Definition page_methods : list string :=
  ["check_step"; "title_prop"; "slug_prop"; "index_prop"].

(** How the lookup of any other name on a page class ends for
    [Page.check_step]: under such a name Python finds what [type] and
    [object] give every class, or one of the other properties of
    [PageMeta] ([title], [index], [next_page] and [previous_page], which
    read [main.utils] and the registry of pages, and [steps] and
    [step_dicts], which look every recorded name up again), or nothing. *)
Inductive lookup_fault :=
  | NoAttribute      (* no such attribute, on the class or on what a call
                        of it returns: [AttributeError] *)
  | NotCallable      (* not to be called with the four arguments of a step:
                        [TypeError] *)
  | LookupRaises (class_name : string).
                     (* the property itself raises, as [next_page] of the
                        last page does *)

Definition fault_exn (f : lookup_fault) : exn :=
  match f with
  | NoAttribute => AttributeError
  | NotCallable => TypeError
  | LookupRaises class_name => OtherError class_name
  end.

(** ** The collaborators of the engine

    [ast.parse], [astcheck.is_ast_like], [str.lower], the functions of
    [main.exercises] and what Python's attribute lookup finds on a page
    class beyond its step classes and the attributes listed in
    [page_attr] are used through their interface only. *)
Class Collaborators := {
  ast : Type;
  ast_parse : string → option ast;      (* [None]: raises [SyntaxError] *)
  is_ast_like : ast → ast → bool;
  str_lower : string → string;
  check_exercise :
    subject → callable → (callable → run ()) → run (list (string * pyval)) →
    bool → run pyval;
  check_result : callable → list (string * pyval) → pyval → run ();
  generate_for_type : pytype → run pyval;
  other_attribute : page → string → lookup_fault;
    (* [getattr(cls, name)(input, output, source, console)] for a name that
       is neither a step class of the page nor listed in [page_attr] *)
}.

Section Engine.
Context `{Collaborators}.

(** *** Signatures *)

(** The parameter names of [inspect.signature(c)]: a bound method has lost
    its first parameter, and has no valid signature without one. *)
Definition signature_parameters (c : callable) : run (list string) :=
  match c with
  | Plain f => tell (EvSignature (fn_name f));; mret (fn_params f).*1
  | Bound f | PartialNone f =>
      tell (EvSignature (fn_name f));;
      match fn_params f with
      | [] => mthrow ValueError
      | _ :: ps => mret ps.*1
      end
  end.

(** [", ".join(names)]. *)
Fixpoint join_comma (names : list string) : string :=
  match names with
  | [] => EmptyString
  | [n] => n
  | n :: ns => n +:+ ", " +:+ join_comma ns
  end.

Definition basic_signature (func : callable) (remove_first : bool) : run string :=
  param_names ← signature_parameters func;
  let param_names := if remove_first then drop 1 param_names else param_names in
  let joined := join_comma param_names in
  mret ("(" +:+ joined +:+ ")").

(** *** [Step] *)

(** [self.tree]. *)
Definition tree (s : submission) : run ast :=
  tell (EvParse (input s));;
  match ast_parse (input s) with
  | Some t => mret t
  | None => mthrow SyntaxError
  end.

(** [ast.parse(source)] of any other text. *)
Definition parse (source : string) : run ast :=
  tell (EvParse source);;
  match ast_parse source with
  | Some t => mret t
  | None => mthrow SyntaxError
  end.

Definition case_sensitive_message : string :=
  "Python is case sensitive! That means that small and capital letters " +:+
  "matter and changing them changes the meaning of the program. The strings " +:+
  "`'hello'` and `'Hello'` are different, as are the variable names " +:+
  "`word` and `Word`.".

Definition tree_matches (s : submission) (template : string) : run pyval :=
  t ← tree s;
  tt ← parse template;
  if is_ast_like t tt then mret (PyBool true)
  else
    lt ← parse (str_lower (input s));
    ltt ← parse (str_lower template);
    if is_ast_like lt ltt then mret (message_dict case_sensitive_message)
    else mret PyNone.

Definition matches_program (c : step_attrs) (s : submission) : run pyval :=
  tree_matches s (program c).

(** [self.solution] (or [cls.solution]). *)
Definition get_solution (c : step_attrs) : run function :=
  match solution c with
  | Some f => mret f
  | None => mthrow AttributeError
  end.

(** *** [ExerciseStep] *)

Definition newline : string := String "010"%char EmptyString.

(** [cls.arg_names()]. *)
Definition arg_names (c : step_attrs) : run (list string) :=
  f ← get_solution c;
  names ← signature_parameters (Plain f);
  mret (drop 1 names).

(** One iteration of the generator [cls.test_values()]; values are
    immutable here, so [deepcopy] is the identity. *)
Definition test_value (c : step_attrs) (test : test_inputs * pyval)
    : run (list (string * pyval) * pyval) :=
  let '(inputs, result) := test in
  match inputs with
  | InputsDict d => mret (d, result)
  | InputsTuple l =>
      arg_names ← arg_names c;
      assert (bool_decide (length arg_names = length l));;
      mret (zip arg_names l, result)
  | InputsSingle v =>
      arg_names ← arg_names c;
      assert (bool_decide (length arg_names = length [v]));;
      mret (zip arg_names [v], result)
  end.

(** [list(cls.test_values())]. *)
Definition test_values (c : step_attrs) : run (list (list (string * pyval) * pyval)) :=
  for_list (tests c) (test_value c).

(** [cls.test_exercise(func)]. *)
Definition test_exercise (c : step_attrs) (func : callable) : run () :=
  for_each (tests c) (λ test,
    '(inputs, result) ← test_value c test;
    check_result func inputs result).

(** [typing.get_type_hints(f).items()]: the annotated parameters in order,
    then the annotation of the result under the key [return]. *)
Definition get_type_hints (f : function) : list (string * pytype) :=
  omap (λ p, match p.2 with Some typ => Some (p.1, typ) | None => None end)
       (fn_params f)
  ++ match fn_return f with Some typ => [("return", typ)] | None => [] end.

(** [cls.generate_inputs()]. *)
Definition generate_inputs (c : step_attrs) : run (list (string * pyval)) :=
  f ← get_solution c;
  for_list (get_type_hints f) (λ '(name, typ),
    tell (EvGenerate typ);;
    v ← generate_for_type typ;
    mret (name, v)).

(** The call of [check_exercise] with the class's own [test_exercise] and
    [generate_inputs]. *)
Definition call_check_exercise (c : step_attrs) (func : subject)
    (solution : callable) (functionise : bool) : run pyval :=
  tell EvCheckExercise;;
  check_exercise func solution (test_exercise c) (generate_inputs c) functionise.

(** The text of the diagnostic about the signature. *)
Definition signature_message (function_name needed_signature actual_signature : string)
    : string :=
  "The signature should be:" +:+ newline +:+ newline +:+
  "    def " +:+ function_name +:+ needed_signature +:+ ":" +:+
  newline +:+ newline +:+
  "not:" +:+ newline +:+ newline +:+
  "    def " +:+ function_name +:+ actual_signature +:+ ":".

(** [ExerciseStep.check]. *)
Definition ExerciseStep_check (c : step_attrs) (s : submission) : run pyval :=
  if String.eqb (code_source s) "shell" then mret (PyBool false)
  else
    sol ← get_solution c;
    let function_name := fn_name sol in
    if String.eqb function_name "solution" then
      call_check_exercise c (SubjectSource (input s)) (Bound sol) true
    else
      tell (EvLookup function_name);;
      match console_locals s !! function_name with
      | None =>
          mret (message_dict ("You must define a function `" +:+ function_name +:+ "`"))
      | Some func =>
          match func with
          | PyFunc f =>
              actual_signature ← basic_signature (Plain f) false;
              needed_signature ← basic_signature (Bound sol) false;
              if negb (String.eqb actual_signature needed_signature) then
                mret (message_dict
                        (signature_message function_name needed_signature
                           actual_signature))
              else
                call_check_exercise c (SubjectCallable (Plain f)) (Bound sol) false
          | _ => mret (message_dict ("`" +:+ function_name +:+ "` is not a function."))
          end
      end.

(** *** Instances, [check] and the dispatcher *)

(** Instantiation: a class whose [check] is still abstract has no
    instances. (An exercise is taken with its solution: a class that derives
    from [ExerciseStep] and declares a program instead has no instances
    either, its [solution] being abstract.) *)
Definition new_step (c : step_attrs) (s : submission) : run () :=
  match check c with
  | Some _ => mret ()
  | None => mthrow TypeError
  end.

(** [self.check()] on an instance of [c] holding [s]. *)
Definition run_check (c : step_attrs) (s : submission) : run pyval :=
  match check c with
  | Some impl =>
      tell (EvCheck (name c));;
      match impl with
      | VerbatimCheck => matches_program c s
      | ExerciseCheck => ExerciseStep_check c s
      | CustomCheck body => body (program c) s
      end
  | None => mthrow (OtherError "NotImplementedError")
  end.

(** [MessageStep.message]. *)
Definition message (c : step_attrs) : pyval := message_dict (text c).

(** [MessageStep.check_message]: [check()] of a new instance of the message class built from [step.args]. *)
Definition check_message (c : step_attrs) (s : submission) : run pyval :=
  new_step c s;;
  run_check c s.

(** [self.expected_code_source not in (None, self.code_source)]. *)
Definition unexpected_code_source (c : step_attrs) (s : submission) : bool :=
  match expected_code_source c with
  | None => false
  | Some expected => negb (String.eqb expected (code_source s))
  end.

(** What [check_with_messages] makes of the value of [check()]. *)
Definition normalize (result : pyval) : pyval :=
  if negb (isinstance_dict result) then PyBool (truthy result) else result.

(** The loop over [self.messages]. *)
Fixpoint scan_messages (msgs : list step_attrs) (result : pyval) (s : submission)
    : run pyval :=
  match msgs with
  | [] => mret result
  | message_cls :: rest =>
      if eq_bool result (after_success message_cls) then
        passed ← check_message message_cls s;
        if truthy passed then mret (message message_cls)
        else scan_messages rest result s
      else scan_messages rest result s
  end.

(** [Step.check_with_messages]. *)
Definition check_with_messages (c : step_class) (s : submission) : run pyval :=
  if unexpected_code_source c s then mret (PyBool false)
  else
    result ← run_check c s;
    let result := normalize result in
    scan_messages (messages c) result s.

(** *** [Page] *)

(** [getattr(cls, attr)] on a page class. For a name that is neither a
    step class nor an attribute listed in [page_attr], the lookup and the
    call that [check_step] makes of what is found are not told apart: the
    exception is the one [other_attribute] gives. *)
Definition page_getattr (cls : page) (attr : string) : run page_attr :=
  match page_dict cls !! attr with
  | Some c => mret (AttrStep c)
  | None =>
      if String.eqb attr "final_text" then mret (AttrText (final_text cls))
      else if String.eqb attr "slug" then mret (AttrText (slug cls))
      else if String.eqb attr "step_names" then mret (AttrTexts (step_names cls))
      else if String.eqb attr "step_texts" then mret (AttrTexts (step_texts cls))
      else if bool_decide (attr ∈ page_methods) then mret (AttrMethod attr)
      else mthrow (fault_exn (other_attribute cls attr))
  end.

(** [Page.check_step]: the attribute found under the step name is called
    with the four arguments of a step; a text and a list cannot be called,
    and the class methods of [Page] take other arguments. *)
Definition check_step (cls : page) (entry : code_entry) (output : pyval)
    (console : gmap string pyval) : run pyval :=
  step_cls ← page_getattr cls (entry_step_name entry);
  match step_cls with
  | AttrStep step_cls =>
      let s := {| input := entry_input entry; result := output;
                  code_source := entry_source entry; console_locals := console |} in
      new_step step_cls s;;
      except_SyntaxError (check_with_messages step_cls s) (mret (PyBool false))
  | AttrText _ | AttrTexts _ | AttrMethod _ => mthrow TypeError
  end.

End Engine.

(** ** Build-time normalization

    The text utilities ([markdown], [textwrap], [re], [str] methods,
    [main.utils.no_weird_whitespace]) and the part of [clean_program] that
    reworks the source text of a function ([inspect.getsource], [ASTTokens],
    [clean_solution_function], [compile]) are used through their
    interface only. *)
Class Authoring := {
  no_weird_whitespace : string → run ();
  markdown : string → string;
  dedent : string → string;
  strip : string → string;
  splitlines : string → list string;
  indent : string → string → string;
  str_replace : string → string → string → string;  (* [text.replace(old, new)] *)
  re_sub_multiline : string → string → string → string;
    (* [re.sub(pattern, repl, text, flags=re.MULTILINE)] *)
  program_of_function : solution_decl → function → list (string * pyval) → run string;
    (* the program text made of a solution, of the function
       [get_solution_function] gives for it and of the first test inputs *)
}.

(** [needle in text] on strings. *)
Fixpoint contains (needle text : string) : bool :=
  String.prefix needle text ||
  match text with
  | EmptyString => false
  | String _ rest => contains needle rest
  end.

Definition nonempty (s : string) : bool := negb (String.eqb s EmptyString).

Definition has_tests (tests : list (test_inputs * pyval)) : bool :=
  match tests with [] => false | _ => true end.

(** [bool(solution)] for the entry [solution] of [cls.__dict__], the empty
    string when there is none. *)
Definition has_solution (solution : option solution_decl) : bool :=
  match solution with Some _ => true | None => false end.

Definition get_solution_function (solution : solution_decl) : function :=
  match fn_params (solution_def solution) with
  | _ :: _ => solution_def solution
  | [] => solution_call solution
  end.

Definition set_solution (f : function) (cls : step_attrs) : step_attrs :=
  {| name := name cls; __name__ := __name__ cls;
     text := text cls; doc := doc cls; program := program cls;
     hints := hints cls; tests := tests cls;
     expected_code_source := expected_code_source cls;
     after_success := after_success cls; program_in_text := program_in_text cls;
     check := check cls; dict_solution := dict_solution cls;
     solution := Some f;
     is_message := is_message cls; is_exercise := is_exercise cls;
     step_first := step_first cls |}.

(** [inner_cls.tests = inner_cls.tests or cls.tests]. *)
Definition inherit_tests (cls inner_cls : step_attrs) : step_attrs :=
  {| name := name inner_cls; __name__ := __name__ inner_cls;
     text := text inner_cls; doc := doc inner_cls;
     program := program inner_cls; hints := hints inner_cls;
     tests := if has_tests (tests inner_cls) then tests inner_cls else tests cls;
     expected_code_source := expected_code_source inner_cls;
     after_success := after_success inner_cls;
     program_in_text := program_in_text inner_cls;
     check := check inner_cls; dict_solution := dict_solution inner_cls;
     solution := solution inner_cls;
     is_message := is_message inner_cls; is_exercise := is_exercise inner_cls;
     step_first := step_first inner_cls |}.

(** [setattrs(cls, text=text, program=program, hints=hints)]. *)
Definition setattrs (cls : step_attrs) (text program : string) (hints : list string)
    : step_attrs :=
  {| name := name cls; __name__ := __name__ cls;
     text := text; doc := doc cls; program := program;
     hints := HintsList hints; tests := tests cls;
     expected_code_source := expected_code_source cls;
     after_success := after_success cls; program_in_text := program_in_text cls;
     check := check cls; dict_solution := dict_solution cls;
     solution := solution cls;
     is_message := is_message cls; is_exercise := is_exercise cls;
     step_first := step_first cls |}.

(** The attribute [a] of [class inner_cls(inner_cls, cls)], which its body
    does not bind: the method resolution order decides between the two
    bases; [get] reads the attribute of a class. *)
Definition resolve {A} (inner_cls cls : step_attrs) (a : attribute)
    (get : step_attrs → A) : A :=
  if bool_decide (a ∈ step_first inner_cls) then get cls else get inner_cls.

(** [class inner_cls(inner_cls, cls)], made of the normalized message
    class and of the step. The class statement names the new class
    [inner_cls]: the [__name__] bound in its body is one more entry of its
    namespace and does not rename it. Its body binds [program_in_text];
    [text], [program], [hints] and [tests] are what normalization has
    written into the message class itself; [check], [solution],
    [after_success] and [expected_code_source] are found in one base or in
    the other; the new class has no [solution] and no docstring in its own
    [__dict__], and derives from [ExerciseStep] when one of the two
    does. *)
Definition message_subclass (inner_cls cls : step_attrs) : step_attrs :=
  {| name := name inner_cls; __name__ := "inner_cls";
     text := text inner_cls; doc := EmptyString;
     program := program inner_cls; hints := hints inner_cls;
     tests := tests inner_cls;
     expected_code_source :=
       resolve inner_cls cls attr_expected_code_source expected_code_source;
     after_success := resolve inner_cls cls attr_after_success after_success;
     program_in_text := program_in_text inner_cls;
     check := resolve inner_cls cls attr_check check;
     dict_solution := None;
     solution := resolve inner_cls cls attr_solution solution;
     is_message := true;
     is_exercise := is_exercise inner_cls || is_exercise cls;
     step_first := [] |}.

(** [inspect.getmembers]: the members as (name, value) pairs sorted by name. *)
Definition name_le {A} (p q : string * A) : Prop := String.leb p.1 q.1.

#[export] Instance name_le_dec {A} (p q : string * A) : Decision (name_le p q).
Proof. unfold name_le. apply _. Defined.

Definition getmembers {A} (members : list (string * A)) : list (string * A) :=
  merge_sort name_le members.

(** The operands of [assert bool(solution) ^ bool(program)]. *)
Definition exactly_one (cls : step_attrs) : bool :=
  xorb (has_solution (dict_solution cls)) (nonempty (program cls)).

(** The classes that [clean_step_class(d)] normalizes as they are declared:
    [d] itself, the step classes nested in it and, through the recursive
    call for a message class, those nested in its message classes. *)
Inductive processed_by : class_decl → step_attrs → Prop :=
  | processed_self d :
      processed_by d (decl_attrs d)
  | processed_member d inner :
      inner ∈ decl_members d →
      is_message (decl_attrs inner) = false →
      processed_by d (decl_attrs inner)
  | processed_nested d inner a :
      inner ∈ decl_members d →
      is_message (decl_attrs inner) = true →
      processed_by inner a →
      processed_by d a.

(** The order of [str] comparison, by which the names are sorted. *)
Definition name_order (a b : string) : Prop := String.leb a b = true.

(** The names of the message classes an iteration of the loop of
    [clean_step_class] appends when it returns. *)
Definition entry_names (e : string * run (list step_attrs)) : list string :=
  match outcome e.2 with
  | Ok appended => name <$> appended
  | Raise _ => []
  end.

Inductive program_arg :=
  | ProgramText (s : string)
  | ProgramFunction (f : solution_decl).

Section Normalizer.
Context `{Collaborators} `{Authoring}.

Definition clean_program (program : program_arg) (inputs : option (list (string * pyval)))
    : run string :=
  program ← match program with
            | ProgramFunction f =>
                program_of_function f (get_solution_function f) (default [] inputs)
            | ProgramText s => mret s
            end;
  no_weird_whitespace program;;
  mret (strip program).

(** [clean_step_class] up to the loop over the nested classes, with the
    attributes [setattrs] writes at the end already in place (the loop reads
    none of them from [cls]). *)
Definition clean_own (cls : step_attrs) : run step_attrs :=
  let text := if nonempty (text cls) then text cls else doc cls in
  let program := program cls in
  let hints := hints cls in
  let solution := dict_solution cls in
  assert (xorb (has_solution solution) (nonempty program));;
  assert (nonempty text);;
  no_weird_whitespace text;;
  '(cls, program) ←
    match solution with
    | Some solution =>
        assert (has_tests (tests cls));;
        let cls := set_solution (get_solution_function solution) cls in
        values ← test_values cls;
        match values with
        | (inputs, _) :: _ =>
            program ← clean_program (ProgramFunction solution) (Some inputs);
            mret (cls, program)
        | [] => mthrow (OtherError "IndexError")
        end
    | None =>
        program ← clean_program (ProgramText program) None;
        mret (cls, program)
    end;
  assert (nonempty program);;
  let hints := match hints with
               | HintsText s => splitlines (strip s)
               | HintsList l => l
               end in
  let hints := markdown <$> hints in
  text ←
    (if contains "__program_" text then
       let text := str_replace text "__program__" program in
       let indented := indent program "    " in
       mret (re_sub_multiline " *__program_indented__" indented text)
     else
       assert (negb (program_in_text cls));;
       mret text);
  assert (negb (contains "__program_" text));;
  let text := markdown (strip (dedent text)) in
  mret (setattrs cls text program hints).

(** The body of the loop for one nested step class; [cleaned] is
    [clean_step_class(inner_cls)] after the tests have been inherited. The
    result is what the iteration appends to [messages]. *)
Definition clean_member (cls inner_cls : step_attrs) (cleaned : run step_attrs)
    : run (list step_attrs) :=
  if is_message inner_cls then
    inner_cls ← cleaned;
    let inner_cls := message_subclass inner_cls cls in
    (if after_success inner_cls && is_exercise inner_cls then
       inner_solution ← get_solution inner_cls;
       solution ← get_solution cls;
       call_check_exercise cls (SubjectCallable (PartialNone inner_solution))
         (PartialNone solution) false;;
       mret ()
     else mret ());;
    inner_cls ← clean_own inner_cls;
    mret [inner_cls]
  else
    clean_own inner_cls;;
    mret [].

Fixpoint run_members (members : list (string * run (list step_attrs)))
    : run (list step_attrs) :=
  match members with
  | [] => mret []
  | (_, member) :: rest =>
      appended ← member;
      messages ← run_members rest;
      mret (appended ++ messages)
  end.

(** [clean_step_class(cls)] for a class whose attributes are first
    adjusted by [prepare] (the parent's assignment to [inner_cls.tests]). *)
Fixpoint clean_prepared (prepare : step_attrs → step_attrs) (d : class_decl)
    {struct d} : run step_class :=
  match d with
  | ClassDecl cls members =>
      cls ← clean_own (prepare cls);
      messages ← run_members (getmembers (
        (λ inner,
           (name (decl_attrs inner),
            clean_member cls (decl_attrs inner)
              (attrs <$> clean_prepared (inherit_tests cls) inner)))
        <$> members));
      mret {| attrs := cls; messages := messages |}
  end.

Definition clean_step_class (d : class_decl) : run step_class :=
  clean_prepared id d.

(** What the loop of [clean_step_class(cls)] does for the nested class
    [inner], under the name [inspect.getmembers] gives it. *)
Definition member_entry (cls : step_attrs) (inner : class_decl)
    : string * run (list step_attrs) :=
  (name (decl_attrs inner),
   clean_member cls (decl_attrs inner)
     (attrs <$> clean_prepared (inherit_tests cls) inner)).

(** [PageMeta.__init__] for a page class: [body] lists the step classes of
    the class body in order; the base class [Page] itself builds nothing. *)
Definition PageMeta_init (class_name : string) (slug : option string)
    (body : list (string * class_decl)) (final_text : option string)
    : run (option page) :=
  if String.eqb class_name "Page" then mret None
  else
    steps ← for_list body (λ '(key, value),
      step ← clean_step_class value;
      mret (key, step));
    match final_text with
    | None => mthrow AssertionError
    | Some final_text =>
        no_weird_whitespace final_text;;
        let final_text := markdown (strip final_text) in
        mret (Some {|
          slug := default class_name slug;
          page_dict := list_to_map steps;
          step_names := steps.*1 ++ ["final_text"];
          step_texts := ((λ step, text (attrs step.2)) <$> steps) ++ [final_text];
          final_text := final_text |})
    end.

End Normalizer.

(** ** The dispatcher as the specification words it

    "Normalize to boolean [outcome]", then scan the message classes with
    that outcome: the raw result of [check()] is made a boolean whatever it
    is. Compared with [check_with_messages] in the properties. *)
Section SpecWording.
Context `{Collaborators}.

Definition spec_normalize (result : pyval) : pyval := PyBool (truthy result).

Definition spec_check_with_messages (c : step_class) (s : submission) : run pyval :=
  if unexpected_code_source c s then mret (PyBool false)
  else
    result ← run_check c s;
    let outcome := spec_normalize result in
    scan_messages (messages c) outcome s.

(** The two conditions of the scan, for the result [r] the loop compares
    with: a message class fires when its flag equals [r] and its re-check
    returns a true value; the loop passes over it when the flag differs or
    the re-check returns a false value. *)
Definition fires (r : pyval) (s : submission) (m : step_attrs) : Prop :=
  eq_bool r (after_success m) = true ∧
  ∃ v, outcome (check_message m s) = Ok v ∧ truthy v = true.

Definition passes_over (r : pyval) (s : submission) (m : step_attrs) : Prop :=
  eq_bool r (after_success m) = false ∨
  ∃ v, outcome (check_message m s) = Ok v ∧ truthy v = false.

End SpecWording.

(** ** Names and test inputs *)

(** A text without comma. *)
Fixpoint no_comma (s : string) : bool :=
  match s with
  | EmptyString => true
  | String c rest => negb (Ascii.eqb c ","%char) && no_comma rest
  end.

(** What every Python identifier is: not empty, and without comma. *)
Definition plain_name (s : string) : bool := nonempty s && no_comma s.

(** The positional values of the inputs of a test, when they are not
    named. *)
Definition positional_inputs (inputs : test_inputs) : option (list pyval) :=
  match inputs with
  | InputsDict _ => None
  | InputsTuple l => Some l
  | InputsSingle v => Some [v]
  end.

(** ** The registry of pages

    The module-level [pages] and [page_slugs_list], what
    [PageMeta.__init__] adds to them for a page class, and the properties
    [index], [next_page] and [previous_page] of [PageMeta]. *)

Record registry := {
  pages : gmap string page;
  page_slugs_list : list string;
}.

Definition empty_registry : registry := {| pages := ∅; page_slugs_list := [] |}.

(** [pages[cls.slug] = cls; page_slugs_list.append(cls.slug)]. *)
Definition register (cls : page) (r : registry) : registry :=
  {| pages := <[slug cls := cls]> (pages r);
     page_slugs_list := page_slugs_list r ++ [slug cls] |}.

(** The registry once the page classes [classes] are defined, in order. *)
Definition register_all (classes : list page) : registry :=
  foldl (λ r cls, register cls r) empty_registry classes.

(** [l.index(x)]. *)
Fixpoint list_index (x : string) (l : list string) : option nat :=
  match l with
  | [] => None
  | y :: l' => if String.eqb y x then Some 0 else S <$> list_index x l'
  end.

(** [l[i]] for a Python integer [i]: a negative index counts from the
    end. *)
Definition getitem {A} (l : list A) (i : Z) : run A :=
  let n := Z.of_nat (length l) in
  let j := if (i <? 0)%Z then (i + n)%Z else i in
  if (0 <=? j)%Z && (j <? n)%Z then
    match l !! Z.to_nat j with
    | Some x => mret x
    | None => mthrow (OtherError "IndexError")
    end
  else mthrow (OtherError "IndexError").

(** [pages[s]]. *)
Definition pages_getitem (r : registry) (s : string) : run page :=
  match pages r !! s with
  | Some cls => mret cls
  | None => mthrow (OtherError "KeyError")
  end.

Definition index (r : registry) (cls : page) : run nat :=
  match list_index (slug cls) (page_slugs_list r) with
  | Some i => mret i
  | None => mthrow ValueError
  end.

Definition next_page (r : registry) (cls : page) : run page :=
  i ← index r cls;
  s ← getitem (page_slugs_list r) (Z.of_nat i + 1);
  pages_getitem r s.

Definition previous_page (r : registry) (cls : page) : run page :=
  i ← index r cls;
  s ← getitem (page_slugs_list r) (Z.of_nat i - 1);
  pages_getitem r s.

(** ** The introspection of a page: [steps] and [step_dicts] *)



Section Introspection.
Context `{Collaborators}.

Definition steps (cls : page) : run (list page_attr) :=
  for_list (step_names cls) (page_getattr cls).


End Introspection.

(** ** The tree of a submission: [stmt], [function_tree], [search_ast]

    The structure of a tree is read through [tree.body], [ast.walk] and the
    class and name of a node; [littleutils.only] is known by the exception
    it raises when the values are not exactly one. *)
Class AstStructure `{Collaborators} := {
  ast_body : ast → list ast;
  ast_walk : ast → list ast;                (* [list(ast.walk(node))] *)
  function_def_name : ast → option string;
    (* [node.name] when [isinstance(node, ast.FunctionDef)] *)
  not_one_value : exn;
}.

Section Trees.
Context `{AstStructure}.

(** [littleutils.only]. *)
Definition only {A} (l : list A) : run A :=
  match l with
  | [x] => mret x
  | _ => mthrow not_one_value
  end.

(** [self.stmt]. *)
Definition stmt (s : submission) : run ast :=
  t ← tree s;
  match ast_body t with
  | first :: _ => mret first
  | [] => mthrow (OtherError "IndexError")
  end.

(** [self.function_tree]. *)
Definition function_tree (c : step_attrs) (s : submission) : run ast :=
  sol ← get_solution c;
  let function_name := fn_name sol in
  if String.eqb function_name "solution" then mthrow ValueError
  else
    t ← tree s;
    only (filter (λ node, function_def_name node = Some function_name) (ast_walk t)).

Definition search_ast (node template : ast) : bool :=
  existsb (λ child, is_ast_like child template) (ast_walk node).

End Trees.

(** ** A small instance of the collaborators

    Enough of a parser and of the text utilities to run the engine on
    concrete classes and submissions: a source text parses when its
    parentheses are balanced and the keyword [in] is not the whole of an
    argument list, its tree is the text without blanks and with one kind of
    quotes, and trees are alike when they are equal. *)
Module Fixture.

Definition lower_ascii (c : ascii) : ascii :=
  let n := nat_of_ascii c in
  if (65 <=? n)%nat && (n <=? 90)%nat then ascii_of_nat (n + 32) else c.

Fixpoint lower (s : string) : string :=
  match s with
  | EmptyString => EmptyString
  | String c rest => String (lower_ascii c) (lower rest)
  end.

Fixpoint balanced (depth : nat) (s : string) : bool :=
  match s with
  | EmptyString => (depth =? 0)%nat
  | String c rest =>
      if Ascii.eqb c "("%char then balanced (S depth) rest
      else if Ascii.eqb c ")"%char then
        match depth with
        | O => false
        | S depth' => balanced depth' rest
        end
      else balanced depth rest
  end.

Fixpoint canonical (s : string) : string :=
  match s with
  | EmptyString => EmptyString
  | String c rest =>
      if Ascii.eqb c " "%char then canonical rest
      else if Ascii.eqb c "'"%char then String "034"%char (canonical rest)
      else String c (canonical rest)
  end.

Definition toy_parse (s : string) : option string :=
  if balanced 0 s && negb (contains "(in)" (canonical s)) then Some (canonical s)
  else None.

(** The test runner: a submitted source text is refused, a callable is run
    on the declared tests and accepted. *)
Definition toy_check_exercise (func : subject) (solution : callable)
    (test : callable → run ()) (generate_inputs : run (list (string * pyval)))
    (functionise : bool) : run pyval :=
  match func with
  | SubjectSource _ => mret (PyBool false)
  | SubjectCallable c => test c;; mret (PyBool true)
  end.

Definition toy_generate_for_type (typ : pytype) : run pyval :=
  match typ with
  | TyInt => mret (PyInt 1)
  | TyStr => mret (PyStr "a")
  | TyBool => mret (PyBool true)
  | TyList _ => mret (PyList [])
  | TyNamed _ => mthrow (OtherError "TypeNotSupported")
  end.

(** Any other name: what Python itself gives every class is not to be
    called as a step class is, [next_page] has no page to give, and nothing
    else is bound. *)
Definition toy_other_attribute (cls : page) (attr : string) : lookup_fault :=
  if String.prefix "__" attr then NotCallable
  else if String.eqb attr "next_page" then LookupRaises "IndexError"
  else NoAttribute.

#[export] Instance toy_collaborators : Collaborators := {|
  ast := string;
  ast_parse := toy_parse;
  is_ast_like := String.eqb;
  str_lower := lower;
  check_exercise := toy_check_exercise;
  check_result := λ _ _ _, tell (EvExternal "check_result");
  generate_for_type := toy_generate_for_type;
  other_attribute := toy_other_attribute;
|}.

(** [text.replace(old, new)]; [skip] counts the characters of a match
    still to be passed over. *)
Fixpoint replace_from (old new : string) (skip : nat) (text : string) : string :=
  match text with
  | EmptyString => EmptyString
  | String c rest =>
      match skip with
      | S skip' => replace_from old new skip' rest
      | O =>
          if nonempty old && String.prefix old text then
            new +:+ replace_from old new (String.length old - 1) rest
          else String c (replace_from old new 0 rest)
      end
  end.

#[export] Instance toy_authoring : Authoring := {|
  no_weird_whitespace := λ _, mret ();
  markdown := λ s, "<p>" +:+ s +:+ "</p>";
  dedent := λ s, s;
  strip := λ s, s;
  splitlines := λ s, [s];
  indent := λ s prefix, prefix +:+ s;
  str_replace := λ text old new, replace_from old new 0 text;
  re_sub_multiline := λ pattern repl text, replace_from "__program_indented__" repl 0 text;
  program_of_function := λ _ f _, mret ("def " +:+ fn_name f +:+ "(...): ...");
|}.

Definition dquote : string := String "034"%char EmptyString.

Definition plain_attrs (cls_name cls_text cls_program : string) : step_attrs :=
  {| name := cls_name; __name__ := cls_name; text := cls_text; doc := EmptyString; program := cls_program;
     hints := HintsList []; tests := []; expected_code_source := None;
     after_success := false; program_in_text := false; check := None;
     dict_solution := None; solution := None;
     is_message := false; is_exercise := false;
     step_first := [] |}.

(** [class hello(VerbatimStep)] with the program of the specification's
    example. *)
Definition hello : step_attrs :=
  {| name := "hello"; __name__ := "hello"; text := "Type __program__"; doc := EmptyString;
     program := "print(" +:+ dquote +:+ "Hello, World!" +:+ dquote +:+ ")";
     hints := HintsList []; tests := []; expected_code_source := None;
     after_success := false; program_in_text := true;
     check := Some VerbatimCheck;
     dict_solution := None; solution := None;
     is_message := false; is_exercise := false;
     step_first := [] |}.

(** Submissions. *)
Definition typed (source : string) : submission :=
  {| input := source; result := PyNone; code_source := "editor";
     console_locals := ∅ |}.

Definition from_shell (source : string) : submission :=
  {| input := source; result := PyNone; code_source := "shell";
     console_locals := ∅ |}.

(** [def double(_, x: int)], returned by the factory [def solution()] of
    an exercise. *)
Definition double : function :=
  {| fn_name := "double";
     fn_params := [("_", None); ("x", Some TyInt)];
     fn_return := None |}.

Definition solution_factory : function :=
  {| fn_name := "solution"; fn_params := []; fn_return := None |}.

(** A normalized [ExerciseStep] asking for a function [double]. *)
Definition double_exercise : step_attrs :=
  {| name := "double_exercise"; __name__ := "double_exercise"; text := "<p>Write double.</p>";
     doc := EmptyString; program := "def double(x): ...";
     hints := HintsList []; tests := [(InputsSingle (PyInt 3), PyInt 6)];
     expected_code_source := None; after_success := false;
     program_in_text := false; check := Some ExerciseCheck;
     dict_solution :=
       Some {| solution_def := solution_factory; solution_call := double |};
     solution := Some double;
     is_message := false; is_exercise := true;
     step_first := [] |}.

(** A message class for successes whose own check always passes, as
    normalization has made it. *)
Definition well_done : step_attrs :=
  {| name := "well_done"; __name__ := "inner_cls"; text := "<p>Well done!</p>";
     doc := EmptyString; program := "pass";
     hints := HintsList []; tests := [];
     expected_code_source := None; after_success := true;
     program_in_text := false;
     check := Some (CustomCheck (λ _ _, mret (PyBool true)));
     dict_solution := None; solution := Some double;
     is_message := true; is_exercise := true;
     step_first := [] |}.

Definition double_with_message : step_class :=
  {| attrs := double_exercise; messages := [well_done] |}.

(** A [VerbatimStep] expecting submissions from the editor only. *)
Definition hello_editor_only : step_class :=
  {| attrs :=
       {| name := "hello"; __name__ := "hello"; text := "<p>Type it.</p>"; doc := EmptyString;
          program := "print(1)";
          hints := HintsList []; tests := [];
          expected_code_source := Some "editor"; after_success := false;
          program_in_text := false; check := Some VerbatimCheck;
          dict_solution := None; solution := None;
          is_message := false; is_exercise := false;
     step_first := [] |};
     messages := [well_done] |}.

Definition hello_class : step_class := {| attrs := hello; messages := [] |}.

Definition hello_page : page :=
  {| slug := "hello_page";
     page_dict := {[ "hello" := hello_editor_only ]};
     step_names := ["hello"; "final_text"];
     step_texts := ["<p>Type it.</p>"; "<p>Done.</p>"];
     final_text := "<p>Done.</p>" |}.

Definition double_page : page :=
  {| slug := "double_page";
     page_dict := {[ "double_exercise" := double_with_message ]};
     step_names := ["double_exercise"; "final_text"];
     step_texts := ["<p>Write double.</p>"; "<p>Done.</p>"];
     final_text := "<p>Done.</p>" |}.

Definition hello_lowercase : string :=
  "print(" +:+ dquote +:+ "hello, world!" +:+ dquote +:+ ")".

(** What a learner may have bound to [double] in the console. *)
Definition learner_double : function :=
  {| fn_name := "double"; fn_params := [("x", None)]; fn_return := None |}.

Definition learner_double_two : function :=
  {| fn_name := "double"; fn_params := [("x", None); ("y", None)]; fn_return := None |}.

Definition typed_with (source : string) (locals : gmap string pyval) : submission :=
  {| input := source; result := PyNone; code_source := "editor";
     console_locals := locals |}.

(** An exercise whose solution [def solution(self, word: str, times)] leaves
    a parameter without annotation. *)
Definition repeat_solution : function :=
  {| fn_name := "solution";
     fn_params := [("self", None); ("word", Some TyStr); ("times", None)];
     fn_return := None |}.

Definition repeat_exercise : step_attrs :=
  {| name := "repeat_exercise"; __name__ := "repeat_exercise"; text := "<p>Repeat the word.</p>";
     doc := EmptyString; program := "print(word * times)";
     hints := HintsList []; tests := [];
     expected_code_source := None; after_success := false;
     program_in_text := false; check := Some ExerciseCheck;
     dict_solution :=
       Some {| solution_def := repeat_solution; solution_call := repeat_solution |};
     solution := Some repeat_solution;
     is_message := false; is_exercise := true;
     step_first := [] |}.

(** The declaration of [hello] with two message classes for failures, in
    the order of the class body: [uses_print] first, then
    [missing_quotes]. Each derives from [MessageStep] and has a check of
    its own; [expected_code_source] is bound in [Step] only, which [hello]
    derives from too. *)
Definition uses_print : step_attrs :=
  {| name := "uses_print"; __name__ := "uses_print"; text := "You are using print, now fix its argument.";
     doc := EmptyString; program := "print(Hello)";
     hints := HintsList []; tests := [];
     expected_code_source := None; after_success := false;
     program_in_text := false;
     check := Some (CustomCheck (λ _ s, mret (PyBool (contains "print" (input s)))));
     dict_solution := None; solution := None;
     is_message := true; is_exercise := false;
     step_first := [attr_expected_code_source] |}.

Definition missing_quotes : step_attrs :=
  {| name := "missing_quotes"; __name__ := "missing_quotes"; text := "A string needs quotes around it.";
     doc := EmptyString; program := "print(Hello)";
     hints := HintsList []; tests := [];
     expected_code_source := None; after_success := false;
     program_in_text := false;
     check := Some (CustomCheck (λ _ s,
       mret (PyBool (negb (contains dquote (input s))
                     && negb (contains "'" (input s))))));
     dict_solution := None; solution := None;
     is_message := true; is_exercise := false;
     step_first := [attr_expected_code_source] |}.

Definition hello_decl : class_decl :=
  ClassDecl hello [ClassDecl uses_print []; ClassDecl missing_quotes []].

(** A declaration with neither a solution nor a program, and one with
    both. *)
Definition neither_decl : class_decl :=
  ClassDecl (plain_attrs "neither" "Some text." EmptyString) [].

Definition both : step_attrs :=
  {| name := "both"; __name__ := "both"; text := "Some text."; doc := EmptyString;
     program := "print(word * times)";
     hints := HintsList []; tests := [(InputsTuple [PyStr "a"; PyInt 2], PyStr "aa")];
     expected_code_source := None; after_success := false;
     program_in_text := false; check := Some ExerciseCheck;
     dict_solution :=
       Some {| solution_def := repeat_solution; solution_call := repeat_solution |};
     solution := None;
     is_message := false; is_exercise := true;
     step_first := [] |}.

(** A message class for successes that is checked like a [VerbatimStep],
    as normalization has made it, and the exercise [double_exercise] with
    it. *)
Definition printed_one : step_attrs :=
  {| name := "printed_one"; __name__ := "inner_cls"; text := "<p>You printed one.</p>";
     doc := EmptyString; program := "print(1)";
     hints := HintsList []; tests := [];
     expected_code_source := None; after_success := true;
     program_in_text := false; check := Some VerbatimCheck;
     dict_solution := None; solution := Some double;
     is_message := true; is_exercise := true;
     step_first := [] |}.

Definition double_with_printed_one : step_class :=
  {| attrs := double_exercise; messages := [printed_one] |}.

Definition printed_page : page :=
  {| slug := "printed_page";
     page_dict := {[ "double_exercise" := double_with_printed_one ]};
     step_names := ["double_exercise"; "final_text"];
     step_texts := ["<p>Write double.</p>"; "<p>Done.</p>"];
     final_text := "<p>Done.</p>" |}.

(** An exercise whose test gives two values for the one argument of
    [double]. *)
Definition double_two_values : step_attrs :=
  {| name := "double_two_values"; __name__ := "double_two_values"; text := "<p>Write double.</p>";
     doc := EmptyString; program := "def double(x): ...";
     hints := HintsList []; tests := [(InputsTuple [PyInt 1; PyInt 2], PyInt 3)];
     expected_code_source := None; after_success := false;
     program_in_text := false; check := Some ExerciseCheck;
     dict_solution :=
       Some {| solution_def := solution_factory; solution_call := double |};
     solution := Some double;
     is_message := false; is_exercise := true;
     step_first := [] |}.

(** A [VerbatimStep] whose program has a name that lower-casing turns into
    the keyword [in], and its page. *)
Definition print_in : step_class :=
  {| attrs :=
       {| name := "print_in"; __name__ := "print_in";
          text := "<p>Type it.</p>"; doc := EmptyString;
          program := "print(In)";
          hints := HintsList []; tests := [];
          expected_code_source := None; after_success := false;
          program_in_text := false; check := Some VerbatimCheck;
          dict_solution := None; solution := None;
          is_message := false; is_exercise := false;
          step_first := [] |};
     messages := [] |}.

Definition print_in_page : page :=
  {| slug := "print_in_page";
     page_dict := {[ "print_in" := print_in ]};
     step_names := ["print_in"; "final_text"];
     step_texts := ["<p>Type it.</p>"; "<p>Done.</p>"];
     final_text := "<p>Done.</p>" |}.

(** A message class for successes, [class praise(MessageStep)], and a
    message class nested in it, [class faint(MessageStep)], which binds no
    [after_success] and no [check]: in the class made of [faint] and
    [praise], [MessageStep] comes after [praise], so both are those of
    [praise]. *)
Definition praise : step_attrs :=
  {| name := "praise"; __name__ := "praise"; text := "Well done.";
     doc := EmptyString; program := "print(1)";
     hints := HintsList []; tests := [];
     expected_code_source := None; after_success := true;
     program_in_text := false;
     check := Some (CustomCheck (λ _ _, mret (PyBool true)));
     dict_solution := None; solution := None;
     is_message := true; is_exercise := false;
     step_first := [attr_expected_code_source] |}.

Definition faint : step_attrs :=
  {| name := "faint"; __name__ := "faint"; text := "Not bad.";
     doc := EmptyString; program := "print(2)";
     hints := HintsList []; tests := [];
     expected_code_source := None; after_success := false;
     program_in_text := false; check := None;
     dict_solution := None; solution := None;
     is_message := true; is_exercise := false;
     step_first := [attr_check; attr_after_success; attr_expected_code_source] |}.

Definition praise_decl : class_decl := ClassDecl praise [ClassDecl faint []].

(** The body and the final text of a page class. *)
Definition hello_body : list (string * class_decl) := [("hello", hello_decl)].

(** The structure of the trees of [toy_parse]: a tree is its one node, its
    body is empty for the empty text, and it defines [double] when it
    starts with the definition. *)
(** A text taken as the tree [toy_parse] makes of it. *)
Definition toy_tree (t : string) : @ast toy_collaborators := t.

Definition toy_body (t : string) : list string :=
  if nonempty t then [t] else [].

Definition toy_walk (t : string) : list string := [t].

Definition toy_function_def_name (t : string) : option string :=
  if String.prefix "defdouble(" t then Some "double" else None.

#[export] Instance toy_structure : @AstStructure toy_collaborators :=
  @Build_AstStructure toy_collaborators toy_body toy_walk toy_function_def_name
    AssertionError.

End Fixture.

(** ** The monad: how [bind] continues *)

Lemma bind_Ok {A B} (m : run A) (f : A → run B) (a : A) :
  outcome m = Ok a → m ≫= f = (trace m ++ trace (f a), outcome (f a)).
Proof.
  destruct m as [t r]; simpl; intros ->. reflexivity.
Qed.

Lemma bind_Raise {A B} (m : run A) (f : A → run B) (e : exn) :
  outcome m = Raise e → m ≫= f = (trace m, Raise e).
Proof.
  destruct m as [t r]; simpl; intros ->. reflexivity.
Qed.

Lemma bind_ret {A B} (a : A) (f : A → run B) : mret a ≫= f = f a.
Proof. destruct (f a) as [t r] eqn:E. unfold mbind, run_bind; simpl. by rewrite E. Qed.

Lemma bind_outcome_Ok {A B} (m : run A) (f : A → run B) (b : B) :
  outcome (m ≫= f) = Ok b → ∃ a, outcome m = Ok a ∧ outcome (f a) = Ok b.
Proof.
  destruct m as [t [a|e]]; simpl; [eauto | discriminate].
Qed.

Ltac run_unfold :=
  unfold mbind, run_bind, mret, run_ret, mthrow, run_throw, fmap, run_fmap,
    tell, assert, outcome, trace in *.

Section Properties.
Context `{Collaborators}.

(** *** The dispatcher *)

Lemma unexpected_code_source_differs (c : step_attrs) (s : submission) expected :
  expected_code_source c = Some expected →
  expected ≠ code_source s →
  unexpected_code_source c s = true.
Proof.
  intros E Hne. unfold unexpected_code_source. rewrite E.
  apply negb_true_iff, String.eqb_neq, Hne.
Qed.

Lemma normalize_cases (r : pyval) :
  normalize r = PyBool true ∨ normalize r = PyBool false ∨ ∃ d, normalize r = PyDict d.
Proof.
  unfold normalize. destruct r; simpl; eauto;
    match goal with |- context [PyBool ?b] => destruct b; eauto end.
Qed.

Lemma message_is_dict (m : step_attrs) : ∃ d, message m = PyDict d.
Proof. unfold message, message_dict. eauto. Qed.

(** The loop returns the result it was given or the message of a class. *)
Lemma scan_messages_outcome (msgs : list step_attrs) (r : pyval) (s : submission) v :
  outcome (scan_messages msgs r s) = Ok v →
  v = r ∨ ∃ m, m ∈ msgs ∧ v = message m.
Proof.
  induction msgs as [|m rest IH]; simpl.
  - intros [= <-]. by left.
  - destruct (eq_bool r (after_success m)).
    + intros Hv. apply bind_outcome_Ok in Hv as (passed & _ & Hv).
      destruct (truthy passed).
      * injection Hv as <-. right. exists m. split; [left | done].
      * destruct (IH Hv) as [-> | (m' & Hin & ->)]; [by left |].
        right. exists m'. split; [by right | done].
    + intros Hv. destruct (IH Hv) as [-> | (m' & Hin & ->)]; [by left |].
      right. exists m'. split; [by right | done].
Qed.

(** The loop returns as soon as every re-check it runs returns. *)
Lemma scan_messages_returns (msgs : list step_attrs) (r : pyval) (s : submission) :
  (∀ m, m ∈ msgs → ∃ v, outcome (check_message m s) = Ok v) →
  ∃ v, outcome (scan_messages msgs r s) = Ok v.
Proof.
  induction msgs as [|m rest IH]; simpl; intros Hall.
  - by eexists.
  - assert (∃ v, outcome (scan_messages rest r s) = Ok v) as [w Hw].
    { apply IH. intros m' Hin. apply Hall. by right. }
    destruct (eq_bool r (after_success m)); [| eauto].
    destruct (Hall m) as [v Hv]; [left |].
    rewrite (bind_Ok _ _ _ Hv). simpl.
    destruct (truthy v); simpl; eauto.
Qed.

(** [check_step] for the name of a step class of the page. *)
Lemma check_step_found (cls : page) (entry : code_entry) (output : pyval)
    (console : gmap string pyval) (c : step_class) :
  page_dict cls !! entry_step_name entry = Some c →
  let s := {| input := entry_input entry; result := output;
              code_source := entry_source entry; console_locals := console |} in
  check_step cls entry output console =
    (new_step c s;;
     except_SyntaxError (check_with_messages c s) (mret (PyBool false))).
Proof.
  intros Hlook s. unfold check_step, page_getattr. rewrite Hlook.
  by rewrite bind_ret.
Qed.

(** C7: when a step declares an expected submission origin and the origin
    of the submission differs, [check_with_messages] returns [False] and
    leaves an empty trace: neither the step's check nor the re-check of any
    message class is run; so does the entry point [check_step]. *)
Theorem unexpected_origin_fails_without_checks
    (c : step_class) (s : submission) (expected : string) :
  expected_code_source c = Some expected →
  expected ≠ code_source s →
  check_with_messages c s = ([], Ok (PyBool false)) ∧
  ∀ (cls : page) (entry : code_entry) output console,
    page_dict cls !! entry_step_name entry = Some c →
    is_Some (check c) →
    s = {| input := entry_input entry; result := output;
           code_source := entry_source entry; console_locals := console |} →
    check_step cls entry output console = ([], Ok (PyBool false)).
Proof.
  intros E Hne.
  assert (check_with_messages c s = ([], Ok (PyBool false))) as Hcwm.
  { unfold check_with_messages.
    by rewrite (unexpected_code_source_differs _ _ _ E Hne). }
  split; [exact Hcwm |].
  intros cls entry output console Hlook [impl Himpl] ->.
  rewrite (check_step_found _ _ _ _ _ Hlook). cbv zeta.
  unfold new_step. rewrite Himpl.
  rewrite bind_ret, Hcwm. reflexivity.
Qed.

(** C9: for a submission whose origin is "shell", [ExerciseStep.check]
    returns [False] at once, whatever the class declares (its expected
    origin included): the trace is empty, so no name was looked up, no
    signature was read and the test runner was not entered. *)
Theorem shell_origin_fails_exercise_check (c : step_attrs) (s : submission) :
  code_source s = "shell" →
  ExerciseStep_check c s = ([], Ok (PyBool false)) ∧
  (check c = Some ExerciseCheck →
   run_check c s = ([EvCheck (name c)], Ok (PyBool false))).
Proof.
  intros Hshell.
  assert (ExerciseStep_check c s = ([], Ok (PyBool false))) as Hcheck.
  { unfold ExerciseStep_check. by rewrite Hshell. }
  split; [exact Hcheck |].
  intros Himpl. unfold run_check. rewrite Himpl, Hcheck. reflexivity.
Qed.

(** C10: whatever [check] and the re-checks of the message classes return,
    a verdict returned by [check_with_messages] is [True], [False] or a
    dict; it returns one whenever the check and the re-checks return; and
    the [None] of a check (the structural matcher on no match) comes out as
    [False]. *)
Theorem verdict_is_boolean_or_dict (c : step_class) (s : submission) :
  (∀ v, outcome (check_with_messages c s) = Ok v →
        v = PyBool true ∨ v = PyBool false ∨ ∃ d, v = PyDict d) ∧
  ((∃ r, outcome (run_check c s) = Ok r) →
   (∀ m, m ∈ messages c → ∃ v, outcome (check_message m s) = Ok v) →
   ∃ v, outcome (check_with_messages c s) = Ok v) ∧
  (unexpected_code_source c s = false →
   outcome (run_check c s) = Ok PyNone →
   (∀ m, m ∈ messages c → after_success m = true) →
   outcome (check_with_messages c s) = Ok (PyBool false)).
Proof.
  split; [| split].
  - intros v. unfold check_with_messages.
    destruct (unexpected_code_source c s).
    + intros [= <-]. auto.
    + intros Hv. apply bind_outcome_Ok in Hv as (r & _ & Hv).
      apply scan_messages_outcome in Hv as [-> | (m & _ & ->)].
      * apply normalize_cases.
      * right; right. apply message_is_dict.
  - intros [r Hr] Hall. unfold check_with_messages.
    destruct (unexpected_code_source c s); [by eexists |].
    rewrite (bind_Ok _ _ _ Hr). simpl.
    by apply scan_messages_returns.
  - intros Hsrc Hr Hall. unfold check_with_messages. rewrite Hsrc.
    rewrite (bind_Ok _ _ _ Hr). simpl.
    change (normalize PyNone) with (PyBool false).
    induction (messages c) as [|m rest IH]; simpl; [done |].
    rewrite (Hall m) by left. simpl. apply IH.
    intros m' Hin. apply Hall. by right.
Qed.

(** C2 (as amended): [check_with_messages] makes a boolean of a raw result
    of [check()] that is not a dict, and leaves a dict as it is; a dict
    equals no [after_success] flag, so for a structured diagnostic no
    message class is consulted (the trace is that of the check alone) and
    the diagnostic itself is the verdict. *)
Theorem only_non_dict_results_are_normalized :
  (∀ r, isinstance_dict r = false → normalize r = PyBool (truthy r)) ∧
  (∀ d, normalize (PyDict d) = PyDict d ∧ ∀ b, eq_bool (PyDict d) b = false) ∧
  (∀ (c : step_class) s d,
     unexpected_code_source c s = false →
     outcome (run_check c s) = Ok (PyDict d) →
     check_with_messages c s = (trace (run_check c s), Ok (PyDict d))) ∧
  (∀ (c : step_class) s r,
     unexpected_code_source c s = false →
     outcome (run_check c s) = Ok r →
     isinstance_dict r = false →
     check_with_messages c s =
       (run_check c s ≫= λ _, scan_messages (messages c) (PyBool (truthy r)) s)).
Proof.
  split; [| split; [| split]].
  - intros r Hr. unfold normalize. by rewrite Hr.
  - intros d. split; [reflexivity | by intros b].
  - intros c s d Hsrc Hr. unfold check_with_messages. rewrite Hsrc.
    rewrite (bind_Ok _ _ _ Hr).
    change (normalize (PyDict d)) with (PyDict d).
    assert (scan_messages (messages c) (PyDict d) s = ([], Ok (PyDict d))) as ->.
    { induction (messages c) as [|m rest IH]; simpl; [done | exact IH]. }
    simpl. by rewrite app_nil_r.
  - intros c s r Hsrc Hr Hnd. unfold check_with_messages. rewrite Hsrc.
    rewrite !(bind_Ok _ _ _ Hr). unfold normalize. by rewrite Hnd.
Qed.

(** *** The structural matcher *)

Lemma parse_Some (source : string) (t : ast) :
  ast_parse source = Some t → parse source = ([EvParse source], Ok t).
Proof. intros E. unfold parse. run_unfold. simpl. by rewrite E. Qed.

Lemma tree_Some (s : submission) (t : ast) :
  ast_parse (input s) = Some t → tree s = ([EvParse (input s)], Ok t).
Proof. intros E. unfold tree. run_unfold. simpl. by rewrite E. Qed.

Lemma tree_None (s : submission) :
  ast_parse (input s) = None → tree s = ([EvParse (input s)], Raise SyntaxError).
Proof. intros E. unfold tree. run_unfold. simpl. by rewrite E. Qed.

Lemma parse_None (source : string) :
  ast_parse source = None → parse source = ([EvParse source], Raise SyntaxError).
Proof. intros E. unfold parse. run_unfold. simpl. by rewrite E. Qed.

(** What [tree_matches] returns once the two texts are parsed and their
    trees are not alike. *)
Lemma tree_matches_retry (s : submission) (template : string) (p t : ast) :
  ast_parse (input s) = Some p → ast_parse template = Some t →
  is_ast_like p t = false →
  outcome (tree_matches s template) =
    match ast_parse (str_lower (input s)), ast_parse (str_lower template) with
    | Some p', Some t' =>
        if is_ast_like p' t' then Ok (message_dict case_sensitive_message)
        else Ok PyNone
    | _, _ => Raise SyntaxError
    end.
Proof.
  intros Hp Ht Hdiff. unfold tree_matches.
  rewrite (tree_Some _ _ Hp), (parse_Some _ _ Ht).
  destruct (ast_parse (str_lower (input s))) as [p'|] eqn:Hp'.
  - rewrite (parse_Some _ _ Hp').
    destruct (ast_parse (str_lower template)) as [t'|] eqn:Ht'.
    + rewrite (parse_Some _ _ Ht'). run_unfold. simpl. rewrite Hdiff. simpl.
      by destruct (is_ast_like p' t').
    + rewrite (parse_None _ Ht'). run_unfold. simpl. by rewrite Hdiff.
  - rewrite (parse_None _ Hp'). run_unfold. simpl. by rewrite Hdiff.
Qed.

Lemma except_SyntaxError_caught {A} (m handler : run A) :
  outcome m = Raise SyntaxError →
  outcome (except_SyntaxError m handler) = outcome handler.
Proof.
  unfold except_SyntaxError, outcome. destruct m as [tr r]. simpl. by intros ->.
Qed.

(** C4 (as amended): when the tree of the submission is like the tree of
    the template, [tree_matches] returns [True]. When it is not, the
    comparison is made again on the trees of the two lower-cased texts: if
    these parse and are alike the result is the message about case, which
    is neither [False] nor [None]; if they parse and are not alike it is
    [None]; and if one of them does not parse, [tree_matches] raises
    [SyntaxError]. So for two texts equal up to case the result is the
    message when the lower-cased text parses, and a parse fault when it
    does not. [VerbatimStep.check] is [tree_matches] on the program of the
    class, and [check_step] answers [False] both to the parse fault and,
    when no message class for failures is consulted, to [None]. *)
Theorem tree_matches_exact_and_case (s : submission) (template : string) :
  (∀ p t,
     ast_parse (input s) = Some p → ast_parse template = Some t →
     is_ast_like p t = true →
     outcome (tree_matches s template) = Ok (PyBool true)) ∧
  (∀ p t,
     ast_parse (input s) = Some p → ast_parse template = Some t →
     is_ast_like p t = false →
     outcome (tree_matches s template) =
       match ast_parse (str_lower (input s)), ast_parse (str_lower template) with
       | Some p', Some t' =>
           if is_ast_like p' t' then Ok (message_dict case_sensitive_message)
           else Ok PyNone
       | _, _ => Raise SyntaxError
       end) ∧
  (message_dict case_sensitive_message ≠ PyBool false ∧
   message_dict case_sensitive_message ≠ PyNone) ∧
  (∀ p t,
     ast_parse (input s) = Some p → ast_parse template = Some t →
     is_ast_like p t = false →
     str_lower (input s) = str_lower template →
     match ast_parse (str_lower template) with
     | Some t' =>
         is_ast_like t' t' = true →
         outcome (tree_matches s template) = Ok (message_dict case_sensitive_message)
     | None => outcome (tree_matches s template) = Raise SyntaxError
     end) ∧
  (∀ c : step_attrs,
     check c = Some VerbatimCheck → template = program c →
     outcome (run_check c s) = outcome (tree_matches s template)) ∧
  (∀ (c : step_class) (cls : page) (entry : code_entry) output console,
     page_dict cls !! entry_step_name entry = Some c →
     check c = Some VerbatimCheck → template = program c →
     s = {| input := entry_input entry; result := output;
            code_source := entry_source entry; console_locals := console |} →
     (outcome (tree_matches s template) = Raise SyntaxError →
      outcome (check_step cls entry output console) = Ok (PyBool false)) ∧
     (outcome (tree_matches s template) = Ok PyNone →
      (∀ m, m ∈ messages c → after_success m = true) →
      outcome (check_step cls entry output console) = Ok (PyBool false))).
Proof.
  assert (∀ c : step_attrs,
     check c = Some VerbatimCheck → template = program c →
     outcome (run_check c s) = outcome (tree_matches s template)) as Hcheck.
  { intros c Himpl ->. unfold run_check. rewrite Himpl.
    unfold matches_program. run_unfold. simpl.
    by destruct (tree_matches s (program c)) as [tr [v|e]]. }
  split; [| split; [| split; [| split; [| split]]]].
  - intros p t Hp Ht Hlike. unfold tree_matches.
    rewrite (tree_Some _ _ Hp), (parse_Some _ _ Ht).
    run_unfold. simpl. by rewrite Hlike.
  - apply tree_matches_retry.
  - split; discriminate.
  - intros p t Hp Ht Hdiff Hlow.
    rewrite (tree_matches_retry _ _ _ _ Hp Ht Hdiff), Hlow.
    destruct (ast_parse (str_lower template)) as [t'|]; [| done].
    by intros ->.
  - exact Hcheck.
  - intros c cls entry output console Hlook Himpl Htemplate Hs.
    rewrite (check_step_found _ _ _ _ _ Hlook). cbv zeta. rewrite <- Hs.
    unfold new_step. rewrite Himpl, bind_ret.
    pose proof (Hcheck c Himpl Htemplate) as Hrun.
    split.
    + intros Hfault. rewrite <- Hrun in Hfault.
      unfold check_with_messages.
      destruct (unexpected_code_source c s); [reflexivity |].
      rewrite except_SyntaxError_caught; [reflexivity |].
      by rewrite (bind_Raise _ _ _ Hfault).
    + intros Hnone Hall. rewrite <- Hrun in Hnone.
      assert (outcome (check_with_messages c s) = Ok (PyBool false)) as Hcwm.
      { unfold check_with_messages.
        destruct (unexpected_code_source c s); [reflexivity |].
        rewrite (bind_Ok _ _ _ Hnone). simpl.
        change (normalize PyNone) with (PyBool false).
        induction (messages c) as [|m rest IH]; simpl; [done |].
        rewrite (Hall m) by left. simpl. apply IH.
        intros m' Hin. apply Hall. by right. }
      unfold except_SyntaxError.
      destruct (check_with_messages c s) as [tr [v|e]]; simpl in *; congruence.
Qed.

(** *** The entry point *)

Lemma except_SyntaxError_outcome {A} (m handler : run A) :
  outcome handler ≠ Raise SyntaxError →
  outcome (except_SyntaxError m handler) ≠ Raise SyntaxError.
Proof.
  intros Hh. unfold except_SyntaxError.
  destruct m as [t [a|[]]]; simpl; try done.
Qed.

(** C3 (as amended): a parse fault raised under [check_step] never reaches
    the caller; for a step whose check is the structural check of
    [VerbatimStep], which parses the submission, a source text that does
    not parse gives [False], and the trace shows that nothing ran after the
    failed parse (and nothing at all when the origin is unexpected). *)
Theorem parse_fault_caught_at_entry_point
    (cls : page) (entry : code_entry) (output : pyval) (console : gmap string pyval) :
  outcome (check_step cls entry output console) ≠ Raise SyntaxError ∧
  ∀ c : step_class,
    page_dict cls !! entry_step_name entry = Some c →
    check c = Some VerbatimCheck →
    ast_parse (entry_input entry) = None →
    check_step cls entry output console =
      (if unexpected_code_source c
            {| input := entry_input entry; result := output;
               code_source := entry_source entry; console_locals := console |}
       then []
       else [EvCheck (name c); EvParse (entry_input entry)],
       Ok (PyBool false)).
Proof.
  split.
  - destruct (page_dict cls !! entry_step_name entry) as [c|] eqn:Hlook.
    + rewrite (check_step_found _ _ _ _ _ Hlook). cbv zeta.
      unfold new_step. destruct (check c) as [impl|]; [| discriminate].
      rewrite bind_ret. by apply except_SyntaxError_outcome.
    + unfold check_step, page_getattr. rewrite Hlook.
      repeat match goal with
             | |- context [if ?b then _ else _] =>
                 destruct b; [rewrite bind_ret; discriminate |]
             end.
      rewrite (bind_Raise _ _ (fault_exn (other_attribute cls (entry_step_name entry))))
        by reflexivity.
      unfold outcome. simpl.
      destruct (other_attribute cls (entry_step_name entry)); discriminate.
  - intros c Hlook Himpl Hparse.
    rewrite (check_step_found _ _ _ _ _ Hlook). cbv zeta.
    unfold new_step. rewrite Himpl, bind_ret.
    unfold check_with_messages.
    destruct (unexpected_code_source c _); [reflexivity |].
    unfold run_check. rewrite Himpl. unfold matches_program, tree_matches.
    rewrite tree_None by exact Hparse. reflexivity.
Qed.

(** *** The behavioral check *)

Lemma basic_signature_plain (f : function) (remove_first : bool) :
  basic_signature (Plain f) remove_first =
    ([EvSignature (fn_name f)],
     Ok ("(" +:+ join_comma (if remove_first then drop 1 (fn_params f).*1
                               else (fn_params f).*1) +:+ ")")).
Proof. reflexivity. Qed.

(** The signature of the bound method [self.solution] is the signature of
    the solution with its first parameter removed. *)
Lemma basic_signature_bound (f : function) :
  fn_params f ≠ [] →
  basic_signature (Bound f) false = basic_signature (Plain f) true.
Proof.
  intros Hne. unfold basic_signature, signature_parameters.
  destruct (fn_params f) as [|p ps]; [done |]. reflexivity.
Qed.

(** C5 (as amended): for a submission whose origin is not "shell" and a
    solution with a name of its own, [ExerciseStep.check] looks the name up
    in the console first. A missing binding, a binding that is not a
    function, and a function whose signature is not the solution's without
    its first parameter each give a diagnostic dict, with a trace in which
    the test runner does not occur; only when the three checks pass is the
    test runner entered. *)
Theorem exercise_check_preconditions (c : step_attrs) (s : submission) (sol : function) :
  solution c = Some sol →
  fn_name sol ≠ "solution" →
  code_source s ≠ "shell" →
  (console_locals s !! fn_name sol = None →
   ExerciseStep_check c s =
     ([EvLookup (fn_name sol)],
      Ok (message_dict ("You must define a function `" +:+ fn_name sol +:+ "`")))) ∧
  (∀ v, console_locals s !! fn_name sol = Some v → isfunction v = false →
   ExerciseStep_check c s =
     ([EvLookup (fn_name sol)],
      Ok (message_dict ("`" +:+ fn_name sol +:+ "` is not a function.")))) ∧
  (∀ f actual needed,
   console_locals s !! fn_name sol = Some (PyFunc f) →
   fn_params sol ≠ [] →
   outcome (basic_signature (Plain f) false) = Ok actual →
   outcome (basic_signature (Plain sol) true) = Ok needed →
   actual ≠ needed →
   ExerciseStep_check c s =
     ([EvLookup (fn_name sol); EvSignature (fn_name f); EvSignature (fn_name sol)],
      Ok (message_dict (signature_message (fn_name sol) needed actual)))) ∧
  (∀ f,
   console_locals s !! fn_name sol = Some (PyFunc f) →
   fn_params sol ≠ [] →
   outcome (basic_signature (Plain f) false) = outcome (basic_signature (Plain sol) true) →
   ExerciseStep_check c s =
     ([EvLookup (fn_name sol); EvSignature (fn_name f); EvSignature (fn_name sol);
       EvCheckExercise]
      ++ trace (check_exercise (SubjectCallable (Plain f)) (Bound sol)
                  (test_exercise c) (generate_inputs c) false),
      outcome (check_exercise (SubjectCallable (Plain f)) (Bound sol)
                 (test_exercise c) (generate_inputs c) false))).
Proof.
  intros Hsol Hname Hsrc.
  apply String.eqb_neq in Hname, Hsrc.
  assert (get_solution c = mret sol) as Hget.
  { unfold get_solution. by rewrite Hsol. }
  split; [| split; [| split]].
  - intros Hnone. unfold ExerciseStep_check. rewrite Hsrc, Hget, bind_ret. cbv zeta. rewrite Hname.
    run_unfold. simpl. by rewrite Hnone.
  - intros v Hsome Hnf. unfold ExerciseStep_check. rewrite Hsrc, Hget, bind_ret. cbv zeta. rewrite Hname.
    run_unfold. simpl. rewrite Hsome. by destruct v.
  - intros f actual needed Hsome Hne Hactual Hneeded Hdiff.
    unfold ExerciseStep_check. rewrite Hsrc, Hget, bind_ret. cbv zeta. rewrite Hname.
    rewrite Hsome, (basic_signature_bound _ Hne).
    assert (basic_signature (Plain f) false = ([EvSignature (fn_name f)], Ok actual))
      as ->.
    { rewrite basic_signature_plain in Hactual |- *. f_equal. exact Hactual. }
    assert (basic_signature (Plain sol) true = ([EvSignature (fn_name sol)], Ok needed))
      as ->.
    { rewrite basic_signature_plain in Hneeded |- *. f_equal. exact Hneeded. }
    apply String.eqb_neq in Hdiff.
    run_unfold. simpl. rewrite Hdiff. reflexivity.
  - intros f Hsome Hne Heq.
    unfold ExerciseStep_check. rewrite Hsrc, Hget, bind_ret. cbv zeta. rewrite Hname.
    rewrite Hsome, (basic_signature_bound _ Hne).
    destruct (basic_signature (Plain sol) true) as [tr_needed [needed|e]] eqn:Hneeded;
      [| by rewrite basic_signature_plain in Hneeded].
    assert (basic_signature (Plain f) false = ([EvSignature (fn_name f)], Ok needed))
      as ->.
    { rewrite basic_signature_plain in Heq |- *. f_equal. exact Heq. }
    rewrite basic_signature_plain in Hneeded. injection Hneeded as <- _.
    unfold call_check_exercise. run_unfold. simpl.
    rewrite String.eqb_refl. simpl.
    by destruct (check_exercise _ _ _ _ _) as [tr [v|e]].
Qed.

(** *** The input generator *)

Lemma for_list_Ok {A B} (l : list A) (body : A → run B) (ys : list B) :
  outcome (for_list l body) = Ok ys →
  Forall2 (λ x y, outcome (body x) = Ok y) l ys.
Proof.
  revert ys. induction l as [|x l IH]; simpl; intros ys.
  - intros [= <-]. constructor.
  - intros Hys. apply bind_outcome_Ok in Hys as (y & Hy & Hys).
    apply bind_outcome_Ok in Hys as (ys' & Hys' & [= <-]).
    constructor; [done | by apply IH].
Qed.

Lemma for_list_returns {A B} (l : list A) (body : A → run B) :
  (∀ x, x ∈ l → ∃ y, outcome (body x) = Ok y) →
  ∃ ys, outcome (for_list l body) = Ok ys.
Proof.
  induction l as [|x l IH]; simpl; intros Hall; [by eexists |].
  destruct (Hall x) as [y Hy]; [left |].
  destruct IH as [ys Hys]; [intros x' Hx'; apply Hall; by right |].
  rewrite (bind_Ok _ _ _ Hy). simpl.
  rewrite (bind_Ok _ _ _ Hys). simpl. by eexists.
Qed.

Lemma lookup_name_unique {A} (l : list (string * A)) (n : string) (a b : A) :
  NoDup l.*1 → (n, a) ∈ l → (n, b) ∈ l → a = b.
Proof.
  induction l as [|[n' a'] l IH]; simpl; intros Hnd Ha Hb; [by inversion Ha |].
  apply NoDup_cons in Hnd as [Hnotin Hnd].
  assert (∀ x, (n, x) ∈ l → n ∈ l.*1) as Hname.
  { intros x Hx. apply list_elem_of_fmap. by exists (n, x). }
  apply elem_of_cons in Ha as [Ha | Ha]; apply elem_of_cons in Hb as [Hb | Hb].
  - congruence.
  - injection Ha as -> ->. exfalso. eauto.
  - injection Hb as -> ->. exfalso. eauto.
  - by apply IH.
Qed.

Lemma get_type_hints_names (f : function) (n : string) :
  n ∈ (get_type_hints f).*1 →
  (∃ typ, (n, Some typ) ∈ fn_params f) ∨ (n = "return" ∧ is_Some (fn_return f)).
Proof.
  unfold get_type_hints. rewrite fmap_app, elem_of_app.
  intros [Hin | Hin].
  - left. apply list_elem_of_fmap in Hin as ([n' typ] & -> & Hin).
    apply list_elem_of_omap in Hin as ([n'' [typ'|]] & Hin & Heq); [| done].
    simpl in Heq. injection Heq as -> ->. by exists typ.
  - right. destruct (fn_return f) as [typ|]; simpl in Hin.
    + apply list_elem_of_singleton in Hin as ->. split; [done | by eexists].
    + by apply elem_of_nil in Hin.
Qed.

Lemma for_list_trace {A B} (l : list A) (body : A → run B) (ys : list B) :
  outcome (for_list l body) = Ok ys →
  trace (for_list l body) = l ≫= λ x, trace (body x).
Proof.
  revert ys. induction l as [|x l IH]; simpl; intros ys; [done |].
  intros Hys. apply bind_outcome_Ok in Hys as (y & Hy & Hys).
  apply bind_outcome_Ok in Hys as (ys' & Hys' & _).
  rewrite (bind_Ok _ _ _ Hy). simpl.
  rewrite (bind_Ok _ _ _ Hys'). simpl.
  by rewrite app_nil_r, (IH _ Hys').
Qed.

Lemma for_list_Raise {A B} (l : list A) (body : A → run B) (e : exn) :
  outcome (for_list l body) = Raise e →
  ∃ x, x ∈ l ∧ outcome (body x) = Raise e.
Proof.
  induction l as [|x l IH]; simpl; [discriminate |].
  destruct (outcome (body x)) as [y|e'] eqn:Hy.
  - rewrite (bind_Ok _ _ _ Hy). simpl.
    destruct (outcome (for_list l body)) as [ys|e''] eqn:Hys.
    + by rewrite (bind_Ok _ _ _ Hys).
    + rewrite (bind_Raise _ _ _ Hys). simpl. intros [= ->].
      destruct (IH eq_refl) as (x' & Hin & Hx').
      exists x'. split; [by right | done].
  - rewrite (bind_Raise _ _ _ Hy). simpl. intros [= ->].
    exists x. split; [left | done].
Qed.

(** One iteration of [generate_inputs]: the call of [generate_for_type],
    whose value is stored under the name. *)
Lemma generate_input_outcome (n : string) (typ : pytype) :
  let body := (tell (EvGenerate typ);; v ← generate_for_type typ; mret (n, v)) in
  outcome body = match outcome (generate_for_type typ) with
                 | Ok v => Ok (n, v)
                 | Raise e => Raise e
                 end ∧
  trace body = EvGenerate typ :: trace (generate_for_type typ).
Proof.
  run_unfold. simpl.
  destruct (generate_for_type typ) as [tr [v|e]]; simpl; [| done].
  by rewrite app_nil_r.
Qed.

Lemma get_type_hints_parameter (f : function) (p : string) (typ : pytype) :
  (p, Some typ) ∈ fn_params f → (p, typ) ∈ get_type_hints f.
Proof.
  intros Hin. unfold get_type_hints. apply elem_of_app. left.
  apply list_elem_of_omap. by exists (p, Some typ).
Qed.

(** C6 (as amended): [generate_inputs] makes the inputs from the type
    hints of the solution, in order: for each of them it calls
    [generate_for_type] on the annotation and stores the value it returns
    under the name, so every parameter with an annotation gets its value
    from [generate_for_type]. It returns whenever [generate_for_type]
    does, and a fault it raises is a fault [generate_for_type] raises for
    an annotation. A parameter without annotation has no type hint: it is
    left out of the inputs, and nothing is raised for it. *)
Theorem generate_inputs_follows_type_hints (c : step_attrs) (f : function) :
  solution c = Some f →
  (∀ inputs, outcome (generate_inputs c) = Ok inputs →
     Forall2 (λ hint input,
        input.1 = hint.1 ∧ outcome (generate_for_type hint.2) = Ok input.2)
       (get_type_hints f) inputs ∧
     trace (generate_inputs c) =
       get_type_hints f ≫= λ hint,
         EvGenerate hint.2 :: trace (generate_for_type hint.2)) ∧
  ((∀ typ, typ ∈ (get_type_hints f).*2 → ∃ v, outcome (generate_for_type typ) = Ok v) →
   ∃ inputs, outcome (generate_inputs c) = Ok inputs) ∧
  (∀ e, outcome (generate_inputs c) = Raise e →
     ∃ typ, typ ∈ (get_type_hints f).*2 ∧ outcome (generate_for_type typ) = Raise e) ∧
  (∀ p typ inputs,
     (p, Some typ) ∈ fn_params f →
     outcome (generate_inputs c) = Ok inputs →
     ∃ v, (p, v) ∈ inputs ∧ outcome (generate_for_type typ) = Ok v) ∧
  (∀ p inputs,
     NoDup (fn_params f).*1 → (p, None) ∈ fn_params f → p ≠ "return" →
     outcome (generate_inputs c) = Ok inputs →
     p ∉ inputs.*1) ∧
  (get_type_hints f = [] → generate_inputs c = ([], Ok [])).
Proof.
  intros Hsol.
  assert (generate_inputs c =
            for_list (get_type_hints f) (λ '(name, typ),
              tell (EvGenerate typ);;
              v ← generate_for_type typ;
              mret (name, v))) as Hgen.
  { unfold generate_inputs, get_solution. rewrite Hsol. by rewrite bind_ret. }
  assert (∀ inputs, outcome (generate_inputs c) = Ok inputs →
            Forall2 (λ hint input,
               input.1 = hint.1 ∧ outcome (generate_for_type hint.2) = Ok input.2)
              (get_type_hints f) inputs) as Hvalues.
  { intros inputs Hin. rewrite Hgen in Hin. apply for_list_Ok in Hin.
    eapply Forall2_impl; [exact Hin |].
    intros [n typ] [n' v] Hy. simpl.
    destruct (generate_input_outcome n typ) as [Hout _]. cbv zeta in Hout.
    rewrite Hout in Hy.
    destruct (outcome (generate_for_type typ)) as [w|e]; [| done].
    by injection Hy as -> ->. }
  assert (∀ inputs, outcome (generate_inputs c) = Ok inputs →
            inputs.*1 = (get_type_hints f).*1) as Hnames.
  { intros inputs Hin. specialize (Hvalues _ Hin). clear Hin Hgen.
    induction Hvalues as [|hint input l ys [Hname _] _ IH]; [done |].
    rewrite !fmap_cons. by f_equal. }
  split; [| split; [| split; [| split; [| split]]]].
  - intros inputs Hin. split; [by apply Hvalues |].
    rewrite Hgen in Hin |- *. rewrite (for_list_trace _ _ _ Hin).
    apply list_bind_ext; [| done]. intros [n typ]. simpl.
    by destruct (generate_input_outcome n typ) as [_ Htr].
  - intros Hall. rewrite Hgen. apply for_list_returns.
    intros [n typ] Hin.
    destruct (Hall typ) as [v Hv].
    { apply list_elem_of_fmap. by exists (n, typ). }
    destruct (generate_input_outcome n typ) as [Hout _]. cbv zeta in Hout.
    rewrite Hout, Hv. by eexists.
  - intros e He. rewrite Hgen in He.
    apply for_list_Raise in He as ([n typ] & Hin & He).
    exists typ. split; [apply list_elem_of_fmap; by exists (n, typ) |].
    destruct (generate_input_outcome n typ) as [Hout _]. cbv zeta in Hout.
    rewrite Hout in He. clear Hout.
    destruct (outcome (generate_for_type typ)); congruence.
  - intros p typ inputs Hp Hin.
    apply get_type_hints_parameter in Hp.
    specialize (Hvalues _ Hin).
    apply list_elem_of_lookup_1 in Hp as [i Hi].
    destruct (Forall2_lookup_l _ _ _ _ _ Hvalues Hi) as ([n v] & Hv & Hname & Hout).
    simpl in Hname, Hout. subst n.
    exists v. split; [by eapply list_elem_of_lookup_2 | done].
  - intros p inputs Hnd Hp Hret Hin Hmem.
    rewrite (Hnames _ Hin) in Hmem.
    apply get_type_hints_names in Hmem as [[typ Htyp] | [-> _]]; [| done].
    by pose proof (lookup_name_unique _ _ _ _ Hnd Hp Htyp).
  - intros Hnil. by rewrite Hgen, Hnil.
Qed.

(** *** The scan of the message classes *)

Lemma scan_messages_passes_over (before rest : list step_attrs) r s :
  Forall (passes_over r s) before →
  outcome (scan_messages (before ++ rest) r s) = outcome (scan_messages rest r s).
Proof.
  induction 1 as [|m before Hm _ IH]; [done |].
  simpl. destruct Hm as [Hflag | (v & Hv & Hfalse)].
  - by rewrite Hflag.
  - destruct (eq_bool r (after_success m)); [| exact IH].
    rewrite (bind_Ok _ _ _ Hv). simpl. by rewrite Hfalse.
Qed.

Lemma scan_messages_fires (m : step_attrs) (rest : list step_attrs) r s :
  fires r s m → outcome (scan_messages (m :: rest) r s) = Ok (message m).
Proof.
  intros (Hflag & v & Hv & Htrue). simpl. rewrite Hflag.
  rewrite (bind_Ok _ _ _ Hv). simpl. by rewrite Htrue.
Qed.

End Properties.

(** ** Build-time normalization *)

Lemma leb_trans (a b c : string) :
  String.leb a b = true → String.leb b c = true → String.leb a c = true.
Proof.
  unfold String.leb.
  destruct (String.compare a b) eqn:Eab; [| | done];
    destruct (String.compare b c) eqn:Ebc; try done; intros _ _.
  - apply OrderedTypeEx.String_as_OT.cmp_eq in Eab as ->.
    apply OrderedTypeEx.String_as_OT.cmp_eq in Ebc as ->.
    assert (String.compare c c = Eq) as ->; [| done].
    by apply OrderedTypeEx.String_as_OT.cmp_eq.
  - apply OrderedTypeEx.String_as_OT.cmp_eq in Eab as ->. by rewrite Ebc.
  - apply OrderedTypeEx.String_as_OT.cmp_eq in Ebc as <-. by rewrite Eab.
  - apply OrderedTypeEx.String_as_OT.cmp_lt in Eab, Ebc.
    pose proof (OrderedTypeEx.String_as_OT.lt_trans _ _ _ Eab Ebc) as Hac.
    apply OrderedTypeEx.String_as_OT.cmp_lt in Hac.
    unfold OrderedTypeEx.String_as_OT.cmp in Hac. by rewrite Hac.
Qed.

#[local] Instance name_le_total {A} : Total (@name_le A).
Proof.
  intros p q. unfold name_le.
  destruct (String.leb_total p.1 q.1) as [E | E]; rewrite E; [by left | by right].
Qed.

#[local] Instance name_le_trans {A} : Transitive (@name_le A).
Proof.
  intros p q r. unfold name_le. intros Hpq Hqr.
  apply Is_true_true in Hpq, Hqr. apply Is_true_true.
  by eapply leb_trans.
Qed.

Lemma getmembers_sorted {A} (members : list (string * A)) :
  StronglySorted name_le (getmembers members).
Proof. apply StronglySorted_merge_sort; apply _. Qed.

Lemma getmembers_Permutation {A} (members : list (string * A)) :
  getmembers members ≡ₚ members.
Proof. apply merge_sort_Permutation. Qed.

Lemma assert_Ok (b : bool) : outcome (assert b) = Ok () → b = true.
Proof. by destruct b. Qed.

Lemma assert_false_bind {A} (k : () → run A) :
  assert false ≫= k = ([], Raise AssertionError).
Proof. reflexivity. Qed.

(** The members the loop has run when it returns, and what it returns. *)
Lemma run_members_Ok (l : list (string * run (list step_attrs))) ms :
  outcome (run_members l) = Ok ms →
  ∃ outs, Forall2 (λ e out, outcome e.2 = Ok out) l outs ∧ ms = concat outs.
Proof.
  revert ms. induction l as [|[n m] l IH]; simpl; intros ms.
  - intros [= <-]. exists []. split; [constructor | done].
  - intros Hms. apply bind_outcome_Ok in Hms as (out & Hout & Hms).
    apply bind_outcome_Ok in Hms as (ms' & Hms' & [= <-]).
    destruct (IH _ Hms') as (outs & Hall & ->).
    exists (out :: outs). split; [by constructor | done].
Qed.

Section BuildProperties.
Context `{Collaborators} `{Authoring}.

Lemma clean_prepared_unfold prepare (cls : step_attrs) (members : list class_decl) :
  clean_prepared prepare (ClassDecl cls members) =
    cls' ← clean_own (prepare cls);
    messages ← run_members (getmembers (member_entry cls' <$> members));
    mret {| attrs := cls'; messages := messages |}.
Proof. reflexivity. Qed.

(** What [clean_own] returns: the class, with its solution function set
    when it declares one, after [setattrs]. *)
Lemma clean_own_Ok (cls cls' : step_attrs) :
  outcome (clean_own cls) = Ok cls' →
  exactly_one cls = true ∧
  ∃ cls1 text program hints,
    cls' = setattrs cls1 text program hints ∧
    (cls1 = cls ∨ ∃ f, cls1 = set_solution f cls).
Proof.
  unfold clean_own. intros Hc.
  apply bind_outcome_Ok in Hc as ([] & Hxor & Hc). apply assert_Ok in Hxor.
  split; [exact Hxor |].
  apply bind_outcome_Ok in Hc as ([] & _ & Hc).
  apply bind_outcome_Ok in Hc as ([] & _ & Hc).
  apply bind_outcome_Ok in Hc as ([cls1 program1] & Hmid & Hc).
  apply bind_outcome_Ok in Hc as ([] & _ & Hc).
  apply bind_outcome_Ok in Hc as (text1 & _ & Hc).
  apply bind_outcome_Ok in Hc as ([] & _ & Hc).
  injection Hc as <-.
  eexists cls1, _, _, _. split; [reflexivity |].
  destruct (dict_solution cls) as [sol|].
  - apply bind_outcome_Ok in Hmid as ([] & _ & Hmid).
    apply bind_outcome_Ok in Hmid as (values & _ & Hmid).
    destruct values as [|[inputs ?] ?]; [discriminate |].
    apply bind_outcome_Ok in Hmid as (program2 & _ & [= <- _]).
    right. by eexists.
  - apply bind_outcome_Ok in Hmid as (program2 & _ & [= <- _]). by left.
Qed.

Lemma clean_own_name (cls cls' : step_attrs) :
  outcome (clean_own cls) = Ok cls' → name cls' = name cls.
Proof.
  intros Hc. apply clean_own_Ok in Hc as (_ & cls1 & ? & ? & ? & -> & [-> | [f ->]]);
    reflexivity.
Qed.

Lemma clean_own_fault (cls : step_attrs) :
  exactly_one cls = false → clean_own cls = ([], Raise AssertionError).
Proof.
  intros Hx. unfold clean_own. fold (exactly_one cls). rewrite Hx.
  apply assert_false_bind.
Qed.

Lemma clean_prepared_Ok prepare (cls : step_attrs) (members : list class_decl) c :
  outcome (clean_prepared prepare (ClassDecl cls members)) = Ok c →
  ∃ cls' ms,
    outcome (clean_own (prepare cls)) = Ok cls' ∧
    outcome (run_members (getmembers (member_entry cls' <$> members))) = Ok ms ∧
    c = {| attrs := cls'; messages := ms |}.
Proof.
  rewrite clean_prepared_unfold. intros Hc.
  apply bind_outcome_Ok in Hc as (cls' & Hown & Hc).
  apply bind_outcome_Ok in Hc as (ms & Hms & [= <-]).
  by exists cls', ms.
Qed.

Lemma fmap_outcome_Ok {A B} (f : A → B) (m : run A) (y : B) :
  outcome (f <$> m) = Ok y → ∃ x, outcome m = Ok x ∧ y = f x.
Proof.
  destruct m as [t [x|e]]; simpl; [| discriminate].
  intros [= <-]. by exists x.
Qed.

(** The two ways an iteration of the loop returns. *)
Lemma clean_member_Ok (cls inner_cls : step_attrs) (cleaned : run step_attrs) out :
  outcome (clean_member cls inner_cls cleaned) = Ok out →
  (is_message inner_cls = true ∧
   ∃ normalized message_cls,
     outcome cleaned = Ok normalized ∧
     outcome (clean_own (message_subclass normalized cls)) = Ok message_cls ∧
     out = [message_cls]) ∨
  (is_message inner_cls = false ∧
   (∃ normalized, outcome (clean_own inner_cls) = Ok normalized) ∧
   out = []).
Proof.
  unfold clean_member. destruct (is_message inner_cls); intros Hout.
  - left. split; [done |].
    apply bind_outcome_Ok in Hout as (normalized & Hclean & Hout).
    apply bind_outcome_Ok in Hout as ([] & _ & Hout).
    apply bind_outcome_Ok in Hout as (message_cls & Hown & [= <-]).
    by exists normalized, message_cls.
  - right. split; [done |].
    apply bind_outcome_Ok in Hout as (normalized & Hown & [= <-]).
    split; [by exists normalized | done].
Qed.

(** When the loop returns, the iteration of every nested class has
    returned. *)
Lemma members_all_run (cls : step_attrs) (members : list class_decl) ms :
  outcome (run_members (getmembers (member_entry cls <$> members))) = Ok ms →
  ∀ inner, inner ∈ members → ∃ out, outcome (member_entry cls inner).2 = Ok out.
Proof.
  intros Hms inner Hin.
  apply run_members_Ok in Hms as (outs & Hall & _).
  assert (member_entry cls inner ∈ getmembers (member_entry cls <$> members)) as He.
  { rewrite getmembers_Permutation. apply list_elem_of_fmap. by exists inner. }
  revert He. generalize (member_entry cls inner). clear Hin.
  induction Hall as [|e out l outs He _ IH]; intros e' Hin; [by inversion Hin |].
  apply elem_of_cons in Hin as [-> | Hin]; [by exists out | by apply IH].
Qed.

Lemma processed_exactly_one (d : class_decl) (a : step_attrs) :
  processed_by d a →
  ∀ prepare c,
    (∀ x, exactly_one (prepare x) = exactly_one x) →
    outcome (clean_prepared prepare d) = Ok c →
    exactly_one a = true.
Proof.
  induction 1 as [[cls members] | [cls members] inner Hin Hmsg
                  | [cls members] inner a Hin Hmsg _ IH];
    intros prepare c Hprep Hc;
    apply clean_prepared_Ok in Hc as (cls' & ms & Hown & Hms & _).
  - apply clean_own_Ok in Hown as [Hx _]. by rewrite Hprep in Hx.
  - destruct (members_all_run _ _ _ Hms inner Hin) as [out Hout].
    apply clean_member_Ok in Hout as [[Hm _] | (_ & [x Hx] & _)]; [congruence |].
    by apply clean_own_Ok in Hx as [Hx _].
  - destruct (members_all_run _ _ _ Hms inner Hin) as [out Hout].
    apply clean_member_Ok in Hout as [(_ & x & m & Hclean & _) | [Hm _]];
      [| simpl in *; congruence].
    apply fmap_outcome_Ok in Hclean as (ci & Hci & _).
    by apply (IH (inherit_tests cls') ci).
Qed.

(** C8: [clean_step_class] accepts a class only if exactly one of its own
    solution and its program is set. A class that declares both or neither
    stops its normalization with an [AssertionError] before anything else is
    done, whether it is a step of a page, a class nested in one or a
    message class; the fault ends [PageMeta.__init__], so no page is built
    from such a declaration. *)
Theorem exactly_one_of_solution_program :
  (∀ cls cls', outcome (clean_own cls) = Ok cls' → exactly_one cls = true) ∧
  (∀ cls members,
     exactly_one cls = false →
     clean_step_class (ClassDecl cls members) = ([], Raise AssertionError)) ∧
  (∀ d c a,
     outcome (clean_step_class d) = Ok c → processed_by d a → exactly_one a = true) ∧
  (∀ class_name slug body final_text built key d a,
     outcome (PageMeta_init class_name slug body final_text) = Ok (Some built) →
     (key, d) ∈ body → processed_by d a → exactly_one a = true) ∧
  (∀ class_name slug body final_text key d,
     class_name ≠ "Page" →
     (key, d) ∈ body → exactly_one (decl_attrs d) = false →
     ∃ e, outcome (PageMeta_init class_name slug body final_text) = Raise e).
Proof.
  assert (∀ d c a,
     outcome (clean_step_class d) = Ok c → processed_by d a → exactly_one a = true)
    as Hprocessed.
  { intros d c a Hc Ha. by apply (processed_exactly_one d a Ha id c). }
  assert (∀ (body : list (string * class_decl)) steps key d,
     outcome (for_list body (λ '(key, value),
                step ← clean_step_class value; mret (key, step))) = Ok steps →
     (key, d) ∈ body → ∃ c, outcome (clean_step_class d) = Ok c) as Hbody.
  { intros body steps key d Hsteps Hin. apply for_list_Ok in Hsteps.
    induction Hsteps as [|[k v] y l ys Hy _ IH]; [by inversion Hin |].
    apply elem_of_cons in Hin as [[= -> ->] | Hin]; [| by apply IH].
    apply bind_outcome_Ok in Hy as (c & Hc & _). by exists c. }
  split; [| split; [| split; [| split]]].
  - intros cls cls' Hown. by apply clean_own_Ok in Hown as [Hx _].
  - intros cls members Hx. unfold clean_step_class.
    rewrite clean_prepared_unfold. unfold id.
    by rewrite (clean_own_fault _ Hx).
  - exact Hprocessed.
  - intros class_name slug body final_text built key d a Hpage Hin Ha.
    unfold PageMeta_init in Hpage.
    destruct (String.eqb class_name "Page"); [discriminate |].
    apply bind_outcome_Ok in Hpage as (steps & Hsteps & _).
    destruct (Hbody _ _ _ _ Hsteps Hin) as [c Hc]. by eapply Hprocessed.
  - intros class_name slug body final_text key d Hname Hin Hx.
    unfold PageMeta_init. apply String.eqb_neq in Hname. rewrite Hname.
    destruct (outcome (for_list body (λ '(key, value),
                step ← clean_step_class value; mret (key, step)))) as [steps|e] eqn:Hsteps.
    + destruct (Hbody _ _ _ _ Hsteps Hin) as [c Hc].
      pose proof (Hprocessed d c _ Hc (processed_self d)) as Hone. congruence.
    + exists e. by rewrite (bind_Raise _ _ e).
Qed.

(** *** The order of the message classes *)

Lemma names_concat (l : list (string * run (list step_attrs))) outs :
  Forall2 (λ e out, outcome e.2 = Ok out) l outs →
  name <$> concat outs = l ≫= entry_names.
Proof.
  induction 1 as [|e out l outs He _ IH]; [done |].
  change (concat (out :: outs)) with (out ++ concat outs).
  rewrite fmap_app, IH, bind_cons. f_equal.
  unfold entry_names. by rewrite He.
Qed.

Lemma sorted_entry_names (l : list (string * run (list step_attrs))) :
  StronglySorted name_le l →
  (∀ e, e ∈ l → entry_names e = [] ∨ entry_names e = [e.1]) →
  StronglySorted name_order (l ≫= entry_names).
Proof.
  induction 1 as [|e l _ IH Hle]; intros Hnames; [constructor |].
  rewrite bind_cons.
  assert (StronglySorted name_order (l ≫= entry_names)) as Hrest.
  { apply IH. intros e' Hin. apply Hnames. by right. }
  destruct (Hnames e) as [-> | ->]; [left | done |].
  simpl. constructor; [exact Hrest |].
  apply Forall_forall. intros n Hn.
  apply list_elem_of_bind in Hn as (e' & Hn & Hin).
  destruct (Hnames e') as [E | E]; [by right | |]; rewrite E in Hn.
  - by apply elem_of_nil in Hn.
  - apply list_elem_of_singleton in Hn as ->.
    rewrite Forall_forall in Hle. specialize (Hle e' Hin).
    unfold name_le in Hle. by apply Is_true_true in Hle.
Qed.

(** An iteration that returns appends the message class built for a
    nested message class, under the same name, and nothing for another
    nested class. *)
Lemma member_entry_names (cls : step_attrs) (inner : class_decl) out :
  outcome (member_entry cls inner).2 = Ok out →
  name <$> out =
    if is_message (decl_attrs inner) then [name (decl_attrs inner)] else [].
Proof.
  destruct inner as [a members]. simpl. intros Hout.
  apply clean_member_Ok in Hout
    as [(-> & x & m & Hclean & Hown & ->) | (-> & _ & ->)]; [| done].
  apply fmap_outcome_Ok in Hclean as (ci & Hci & ->).
  apply clean_prepared_Ok in Hci as (a' & ms & Ha' & _ & ->).
  apply clean_own_name in Hown, Ha'. simpl in *.
  by rewrite Hown, Ha'.
Qed.

Lemma member_entry_names_cases (cls : step_attrs) (inner : class_decl) :
  entry_names (member_entry cls inner) = [] ∨
  entry_names (member_entry cls inner) = [(member_entry cls inner).1].
Proof.
  unfold entry_names.
  destruct (outcome (member_entry cls inner).2) as [out|e] eqn:Hout; [| by left].
  rewrite (member_entry_names _ _ _ Hout).
  destruct (is_message (decl_attrs inner)); [by right | by left].
Qed.

Lemma filter_message_names (members : list class_decl) :
  name <$> filter (λ a, is_message a = true) (decl_attrs <$> members) =
  members ≫= λ inner,
    if is_message (decl_attrs inner) then [name (decl_attrs inner)] else [].
Proof.
  induction members as [|inner members IH]; [done |].
  rewrite fmap_cons, bind_cons.
  destruct (is_message (decl_attrs inner)) eqn:E.
  - rewrite filter_cons_True by done. by rewrite fmap_cons, IH.
  - rewrite filter_cons_False by (by rewrite E). exact IH.
Qed.

(** The message list of a normalized class. *)
Lemma messages_by_name (d : class_decl) (c : step_class) :
  outcome (clean_step_class d) = Ok c →
  StronglySorted name_order (name <$> messages c) ∧
  name <$> messages c ≡ₚ
    name <$> filter (λ a, is_message a = true) (decl_attrs <$> decl_members d).
Proof.
  destruct d as [cls members]. unfold clean_step_class. intros Hc.
  apply clean_prepared_Ok in Hc as (cls' & ms & _ & Hms & ->). simpl.
  pose proof (members_all_run _ _ _ Hms) as Hall.
  apply run_members_Ok in Hms as (outs & Houts & ->).
  rewrite (names_concat _ _ Houts). split.
  - apply sorted_entry_names; [apply getmembers_sorted |].
    intros e He. rewrite getmembers_Permutation in He.
    apply list_elem_of_fmap in He as (inner & -> & _).
    apply member_entry_names_cases.
  - rewrite getmembers_Permutation, list_fmap_bind, filter_message_names.
    erewrite Forall_bind_ext; [reflexivity |].
    apply Forall_forall. intros inner Hin. simpl. unfold entry_names.
    destruct (Hall inner Hin) as [out Hout]. rewrite Hout.
    exact (member_entry_names cls' inner out Hout).
Qed.

(** C1 (as amended): build-time normalization fills the message list of a
    step class with one class per nested message class, in ascending order
    of their names (the order of [inspect.getmembers], not that of the
    class body). After the check has returned [r], [check_with_messages]
    scans that list in order: the first message class whose [after_success]
    equals the normalized result and whose re-check on the same submission
    returns a true value gives the verdict, its message dict; when the loop
    passes over every message class, the verdict is the result of the
    check, made a boolean unless it is a dict. *)
Theorem messages_scanned_in_name_order :
  (∀ d c,
     outcome (clean_step_class d) = Ok c →
     StronglySorted name_order (name <$> messages c) ∧
     name <$> messages c ≡ₚ
       name <$> filter (λ a, is_message a = true) (decl_attrs <$> decl_members d)) ∧
  (∀ (c : step_class) s r before m after,
     unexpected_code_source c s = false →
     outcome (run_check c s) = Ok r →
     messages c = before ++ m :: after →
     Forall (passes_over (normalize r) s) before →
     fires (normalize r) s m →
     outcome (check_with_messages c s) = Ok (message m)) ∧
  (∀ (c : step_class) s r,
     unexpected_code_source c s = false →
     outcome (run_check c s) = Ok r →
     Forall (passes_over (normalize r) s) (messages c) →
     outcome (check_with_messages c s) = Ok (normalize r)).
Proof.
  split; [exact messages_by_name | split].
  - intros c s r before m after Hsrc Hr Hms Hbefore Hm.
    unfold check_with_messages. rewrite Hsrc, (bind_Ok _ _ _ Hr). simpl.
    rewrite Hms, (scan_messages_passes_over _ _ _ _ Hbefore).
    by apply scan_messages_fires.
  - intros c s r Hsrc Hr Hall.
    unfold check_with_messages. rewrite Hsrc, (bind_Ok _ _ _ Hr). simpl.
    rewrite <- (app_nil_r (messages c)).
    by rewrite (scan_messages_passes_over _ _ _ _ Hall).
Qed.

End BuildProperties.

(** ** The properties on concrete classes and submissions *)

Import Fixture.

Lemma unexpected_origin_fails_without_checks_witness :
  check_with_messages hello_editor_only (from_shell "print(1)") = ([], Ok (PyBool false)) ∧
  check_step hello_page
    {| entry_step_name := "hello"; entry_input := "print(1)"; entry_source := "shell" |}
    PyNone ∅ = ([], Ok (PyBool false)).
Proof.
  destruct (unexpected_origin_fails_without_checks hello_editor_only
              (from_shell "print(1)") "editor") as [Hcwm Hstep];
    [reflexivity | discriminate |].
  split; [exact Hcwm |].
  apply Hstep; [reflexivity | by eexists | reflexivity].
Defined.

Lemma shell_origin_fails_exercise_check_witness :
  ExerciseStep_check double_exercise (from_shell "double(3)") = ([], Ok (PyBool false)) ∧
  run_check double_exercise (from_shell "double(3)")
    = ([EvCheck "double_exercise"], Ok (PyBool false)).
Proof.
  destruct (shell_origin_fails_exercise_check double_exercise (from_shell "double(3)"))
    as [Hcheck Hrun]; [reflexivity |].
  split; [exact Hcheck | apply Hrun; reflexivity].
Defined.

Lemma verdict_is_boolean_or_dict_witness :
  outcome (check_with_messages hello_class (typed "prin(1)")) = Ok (PyBool false).
Proof.
  apply (verdict_is_boolean_or_dict hello_class (typed "prin(1)")).
  - reflexivity.
  - vm_compute. reflexivity.
  - intros m Hm. inversion Hm.
Defined.

(** C2, counterexample: the exercise check answers a submission that
    defines no [double] with a diagnostic dict; [check_with_messages]
    returns that dict, where a dispatcher that made a boolean of it first
    (a non-empty dict is true) would have fired the message for successes. *)
Lemma diagnostic_result_not_normalized :
  outcome (run_check double_with_message (typed "x = 1"))
    = Ok (message_dict "You must define a function `double`") ∧
  outcome (check_with_messages double_with_message (typed "x = 1"))
    = Ok (message_dict "You must define a function `double`") ∧
  outcome (spec_check_with_messages double_with_message (typed "x = 1"))
    = Ok (message well_done) ∧
  ¬ ∃ b, normalize (message_dict "You must define a function `double`") = PyBool b.
Proof.
  split; [| split; [| split]]; try (vm_compute; reflexivity).
  intros [b Hb]. vm_compute in Hb. discriminate.
Qed.

Lemma only_non_dict_results_are_normalized_witness :
  check_with_messages double_with_message (typed "x = 1")
    = ([EvCheck "double_exercise"; EvLookup "double"],
       Ok (message_dict "You must define a function `double`")) ∧
  normalize PyNone = PyBool false.
Proof.
  destruct (only_non_dict_results_are_normalized (H := toy_collaborators))
    as (Hbool & _ & Hdict & _).
  split.
  - apply (Hdict double_with_message (typed "x = 1")
             [("message", PyStr "You must define a function `double`")]).
    + reflexivity.
    + vm_compute. reflexivity.
  - apply Hbool. reflexivity.
Defined.

(** C4, counterexample: the submission [print(IN)] differs from the
    program [print(In)] by the case of a name only, and both parse; the two
    lower-cased texts are [print(in)], which does not parse, [in] being a
    keyword. [tree_matches] raises the parse fault instead of returning the
    message about case, and the verdict of [check_step] is [False]. *)
Lemma lower_cased_text_does_not_parse :
  str_lower "print(IN)" = str_lower "print(In)" ∧
  (∃ p t, ast_parse "print(IN)" = Some p ∧ ast_parse "print(In)" = Some t ∧
          is_ast_like p t = false) ∧
  ast_parse (str_lower "print(In)") = None ∧
  tree_matches (typed "print(IN)") (program print_in) =
    ([EvParse "print(IN)"; EvParse "print(In)"; EvParse "print(in)"],
     Raise SyntaxError) ∧
  outcome (check_step print_in_page
             {| entry_step_name := "print_in"; entry_input := "print(IN)";
                entry_source := "editor" |} PyNone ∅)
    = Ok (PyBool false).
Proof.
  split; [reflexivity |].
  split; [exists (toy_tree "print(IN)"), (toy_tree "print(In)"); by repeat split |].
  repeat split; vm_compute; reflexivity.
Qed.

Lemma tree_matches_exact_and_case_witness :
  outcome (tree_matches (typed "print('Hello, World!')") (program hello))
    = Ok (PyBool true) ∧
  outcome (tree_matches (typed hello_lowercase) (program hello))
    = Ok (message_dict case_sensitive_message) ∧
  outcome (tree_matches (typed "prin(1)") (program hello)) = Ok PyNone ∧
  outcome (tree_matches (typed "print(IN)") (program print_in)) = Raise SyntaxError ∧
  outcome (run_check hello (typed hello_lowercase))
    = outcome (tree_matches (typed hello_lowercase) (program hello)) ∧
  outcome (check_step print_in_page
             {| entry_step_name := "print_in"; entry_input := "print(IN)";
                entry_source := "editor" |} PyNone ∅)
    = Ok (PyBool false).
Proof.
  split; [| split; [| split; [| split; [| split]]]].
  - eapply (tree_matches_exact_and_case (typed "print('Hello, World!')") (program hello));
      vm_compute; reflexivity.
  - erewrite (proj1 (proj2 (tree_matches_exact_and_case (typed hello_lowercase)
                              (program hello))));
      reflexivity.
  - erewrite (proj1 (proj2 (tree_matches_exact_and_case (typed "prin(1)")
                              (program hello))));
      reflexivity.
  - erewrite (proj1 (proj2 (tree_matches_exact_and_case (typed "print(IN)")
                              (program print_in))));
      reflexivity.
  - destruct (tree_matches_exact_and_case (typed hello_lowercase) (program hello))
      as (_ & _ & _ & _ & Hcheck & _).
    apply (Hcheck hello); reflexivity.
  - destruct (tree_matches_exact_and_case (typed "print(IN)") (program print_in))
      as (_ & _ & _ & _ & _ & Hentry).
    destruct (Hentry print_in print_in_page
                {| entry_step_name := "print_in"; entry_input := "print(IN)";
                   entry_source := "editor" |} PyNone ∅
                eq_refl eq_refl eq_refl eq_refl) as [Hfault _].
    apply Hfault. vm_compute. reflexivity.
Defined.

(** C3, counterexample: the source text does not parse, yet the verdict of
    [check_step] for an [ExerciseStep] that asks for a function [double] is
    not [False]: its check never parses the submission, it looks [double]
    up in the console and answers with the diagnostic. *)
Lemma unparsed_exercise_submission_not_false :
  ast_parse "def double(x:" = None ∧
  outcome (check_step double_page
             {| entry_step_name := "double_exercise";
                entry_input := "def double(x:"; entry_source := "editor" |}
             PyNone ∅)
    = Ok (message_dict "You must define a function `double`") ∧
  message_dict "You must define a function `double`" ≠ PyBool false.
Proof.
  split; [| split]; [vm_compute; reflexivity .. | discriminate].
Qed.

Lemma parse_fault_caught_at_entry_point_witness :
  check_step hello_page
    {| entry_step_name := "hello"; entry_input := "print(1"; entry_source := "editor" |}
    PyNone ∅
  = ([EvCheck "hello"; EvParse "print(1"], Ok (PyBool false)).
Proof.
  apply (proj2 (parse_fault_caught_at_entry_point hello_page
                  {| entry_step_name := "hello"; entry_input := "print(1";
                     entry_source := "editor" |} PyNone ∅) hello_editor_only);
    reflexivity.
Defined.

(** C5, counterexample: the submission comes from the shell and the console
    binds no [double]; the check does not look the name up and its answer
    is [False], not a diagnostic dict. *)
Lemma shell_submission_gets_no_diagnostic :
  solution double_exercise = Some double ∧
  console_locals (from_shell "x = 1") !! fn_name double = None ∧
  ExerciseStep_check double_exercise (from_shell "x = 1") = ([], Ok (PyBool false)) ∧
  isinstance_dict (PyBool false) = false.
Proof. repeat split. Qed.

Lemma exercise_check_preconditions_witness :
  ExerciseStep_check double_exercise (typed "x = 1") =
    ([EvLookup "double"], Ok (message_dict "You must define a function `double`")) ∧
  ExerciseStep_check double_exercise (typed_with "double = 2" {[ "double" := PyInt 2 ]}) =
    ([EvLookup "double"], Ok (message_dict "`double` is not a function.")) ∧
  ExerciseStep_check double_exercise
      (typed_with "def double(x, y): ..." {[ "double" := PyFunc learner_double_two ]}) =
    ([EvLookup "double"; EvSignature "double"; EvSignature "double"],
     Ok (message_dict (signature_message "double" "(x)" "(x, y)"))) ∧
  outcome (ExerciseStep_check double_exercise
             (typed_with "def double(x): ..." {[ "double" := PyFunc learner_double ]}))
    = Ok (PyBool true).
Proof.
  split; [| split; [| split]].
  - apply (exercise_check_preconditions double_exercise (typed "x = 1") double);
      [reflexivity | discriminate | discriminate | reflexivity].
  - apply (proj1 (proj2 (exercise_check_preconditions double_exercise
             (typed_with "double = 2" {[ "double" := PyInt 2 ]}) double
             eq_refl ltac:(discriminate) ltac:(discriminate))) (PyInt 2));
      reflexivity.
  - apply (proj1 (proj2 (proj2 (exercise_check_preconditions double_exercise
             (typed_with "def double(x, y): ..." {[ "double" := PyFunc learner_double_two ]})
             double eq_refl ltac:(discriminate) ltac:(discriminate))))
             learner_double_two "(x, y)" "(x)");
      [reflexivity | discriminate | reflexivity | reflexivity | discriminate].
  - rewrite (proj2 (proj2 (proj2 (exercise_check_preconditions double_exercise
             (typed_with "def double(x): ..." {[ "double" := PyFunc learner_double ]})
             double eq_refl ltac:(discriminate) ltac:(discriminate))))
             learner_double); [reflexivity .. | discriminate | reflexivity].
Defined.

(** C6, counterexample: the parameter [times] of the solution has no
    annotation; [generate_inputs] returns inputs without it and raises
    nothing. *)
Lemma unannotated_parameter_omitted :
  ("times", None) ∈ fn_params repeat_solution ∧
  generate_inputs repeat_exercise = ([EvGenerate TyStr], Ok [("word", PyStr "a")]) ∧
  "times" ∉ [("word", PyStr "a")].*1.
Proof.
  split; [| split].
  - do 2 right. left.
  - reflexivity.
  - simpl. intros Hin. apply list_elem_of_singleton in Hin. discriminate.
Qed.

Lemma generate_inputs_follows_type_hints_witness :
  (∃ inputs, outcome (generate_inputs repeat_exercise) = Ok inputs) ∧
  ∀ inputs, outcome (generate_inputs repeat_exercise) = Ok inputs →
    ("word", PyStr "a") ∈ inputs ∧ ("times" ∉ inputs.*1) ∧
    trace (generate_inputs repeat_exercise) = [EvGenerate TyStr].
Proof.
  destruct (generate_inputs_follows_type_hints repeat_exercise repeat_solution eq_refl)
    as (Hvalues & Hreturns & _ & Hgiven & Homit & _).
  split.
  - apply Hreturns. intros typ Htyp.
    apply list_elem_of_singleton in Htyp as ->. by eexists.
  - intros inputs Hin. split; [| split].
    + destruct (Hgiven "word" TyStr inputs) as (v & Hv & Hout);
        [right; left | exact Hin |].
      injection Hout as <-. exact Hv.
    + apply (Homit "times" inputs); [| do 2 right; left | discriminate | exact Hin].
      apply (bool_decide_unpack _). vm_compute. exact I.
    + apply (Hvalues inputs Hin).
Defined.

(** C1, counterexample: [uses_print] is declared before [missing_quotes];
    for the submission [print(Hello)] the check fails and both message
    classes fire. The message list of the normalized class has
    [missing_quotes] first, and its message is the verdict, not the message
    of the class declared first. *)
Lemma declaration_order_not_followed :
  ∃ c,
    outcome (clean_step_class hello_decl) = Ok c ∧
    name <$> (decl_attrs <$> decl_members hello_decl) = ["uses_print"; "missing_quotes"] ∧
    name <$> messages c = ["missing_quotes"; "uses_print"] ∧
    outcome (run_check c (typed "print(Hello)")) = Ok PyNone ∧
    Forall (fires (PyBool false) (typed "print(Hello)")) (messages c) ∧
    message <$> messages c =
      [message_dict "<p><p>A string needs quotes around it.</p></p>";
       message_dict "<p><p>You are using print, now fix its argument.</p></p>"] ∧
    outcome (check_with_messages c (typed "print(Hello)"))
      = Ok (message_dict "<p><p>A string needs quotes around it.</p></p>").
Proof.
  eexists. split; [vm_compute; reflexivity |].
  do 3 (split; [vm_compute; reflexivity |]).
  split; [| split; vm_compute; reflexivity].
  repeat constructor; try (eexists; split; vm_compute; reflexivity).
Qed.

Lemma messages_scanned_in_name_order_witness :
  (∃ c, outcome (clean_step_class hello_decl) = Ok c ∧
        StronglySorted name_order (name <$> messages c)) ∧
  outcome (check_with_messages double_with_message
             (typed_with "def double(x): ..." {[ "double" := PyFunc learner_double ]}))
    = Ok (message well_done) ∧
  outcome (check_with_messages hello_class (typed "prin(1)")) = Ok (PyBool false).
Proof.
  destruct (messages_scanned_in_name_order (H := toy_collaborators) (H0 := toy_authoring))
    as (Hbuild & Hfirst & Hnone).
  split; [| split].
  - destruct (outcome (clean_step_class hello_decl)) as [c|e] eqn:Hc;
      [| vm_compute in Hc; discriminate].
    exists c. split; [reflexivity |]. by apply (Hbuild hello_decl c).
  - apply (Hfirst double_with_message _ (PyBool true) [] well_done []).
    + reflexivity.
    + vm_compute. reflexivity.
    + reflexivity.
    + constructor.
    + split; [reflexivity |]. exists (PyBool true). split; reflexivity.
  - apply (Hnone hello_class (typed "prin(1)") PyNone).
    + reflexivity.
    + vm_compute. reflexivity.
    + constructor.
Defined.

Lemma exactly_one_of_solution_program_witness :
  clean_step_class (ClassDecl both []) = ([], Raise AssertionError) ∧
  clean_step_class neither_decl = ([], Raise AssertionError) ∧
  (∃ e, outcome (PageMeta_init "HelloPage" None
                   [("hello", hello_decl); ("neither", neither_decl)] (Some "Done."))
          = Raise e) ∧
  exactly_one hello = true.
Proof.
  destruct (exactly_one_of_solution_program (H := toy_collaborators) (H0 := toy_authoring))
    as (_ & Hfault & Hok & _ & Hpage).
  split; [| split; [| split]].
  - apply Hfault. reflexivity.
  - apply Hfault. reflexivity.
  - apply (Hpage _ _ _ _ "neither" neither_decl).
    + discriminate.
    + right. left.
    + reflexivity.
  - destruct (outcome (clean_step_class hello_decl)) as [c|e] eqn:Hc;
      [| vm_compute in Hc; discriminate].
    apply (Hok hello_decl c hello Hc). apply (processed_self hello_decl).
Defined.

(** ** Further properties of the dispatcher and of the matcher *)

Section DispatchProperties.
Context `{Collaborators}.

Lemma scan_messages_unconsulted (msgs : list step_attrs) r s :
  (∀ m, m ∈ msgs → eq_bool r (after_success m) = false) →
  scan_messages msgs r s = ([], Ok r).
Proof.
  induction msgs as [|m rest IH]; simpl; intros Hall; [done |].
  rewrite (Hall m) by left. apply IH. intros m' Hin. apply Hall. by right.
Qed.

Lemma scan_messages_recheck_raises (m : step_attrs) (rest : list step_attrs) r s e :
  eq_bool r (after_success m) = true →
  outcome (check_message m s) = Raise e →
  outcome (scan_messages (m :: rest) r s) = Raise e.
Proof.
  intros Hflag He. simpl. rewrite Hflag. by rewrite (bind_Raise _ _ _ He).
Qed.

(** X1: [check_step] guards against a parse fault only. Under a name that
    is no step class of the page, nothing runs: for the attributes that
    [PageMeta] and [Page] give every page (a text, a list, a class method)
    the call raises [TypeError], and for any other name the lookup ends as
    Python has it, never with a verdict and never with [SyntaxError]. A
    step class whose [check] is abstract raises [TypeError] before
    anything runs. For a step class that has instances, any other
    exception of [check_with_messages] reaches the caller as it is, with
    the trace of what ran, and a verdict is returned unchanged. *)
Theorem check_step_catches_syntax_errors_only
    (cls : page) (entry : code_entry) (output : pyval) (console : gmap string pyval) :
  (page_dict cls !! entry_step_name entry = None →
   (entry_step_name entry ∈
      ["final_text"; "slug"; "step_names"; "step_texts"] ++ page_methods →
    check_step cls entry output console = ([], Raise TypeError)) ∧
   (entry_step_name entry ∉
      ["final_text"; "slug"; "step_names"; "step_texts"] ++ page_methods →
    check_step cls entry output console =
      ([], Raise (fault_exn (other_attribute cls (entry_step_name entry))))) ∧
   ∃ e, check_step cls entry output console = ([], Raise e) ∧ e ≠ SyntaxError) ∧
  (∀ c : step_class,
     page_dict cls !! entry_step_name entry = Some c →
     let s := {| input := entry_input entry; result := output;
                 code_source := entry_source entry; console_locals := console |} in
     (check c = None →
      check_step cls entry output console = ([], Raise TypeError)) ∧
     (is_Some (check c) →
      (is_exercise c = true → is_Some (solution c)) →
      (∀ e, outcome (check_with_messages c s) = Raise e → e ≠ SyntaxError →
            check_step cls entry output console = check_with_messages c s) ∧
      (∀ v, outcome (check_with_messages c s) = Ok v →
            check_step cls entry output console = check_with_messages c s) ∧
      (outcome (check_with_messages c s) = Raise SyntaxError →
       check_step cls entry output console =
         (trace (check_with_messages c s), Ok (PyBool false))))).
Proof.
  split.
  - intros Hnone.
    assert (entry_step_name entry ∈
              ["final_text"; "slug"; "step_names"; "step_texts"] ++ page_methods →
            check_step cls entry output console = ([], Raise TypeError)) as Hbound.
    { intros Hin. unfold check_step, page_getattr. rewrite Hnone.
      unfold page_methods in Hin. simpl in Hin. rewrite !elem_of_cons in Hin.
      destruct Hin as [-> | [-> | [-> | [-> | [-> | [-> | [-> | [-> | Hin]]]]]]]];
        [reflexivity .. | by apply elem_of_nil in Hin]. }
    assert (entry_step_name entry ∉
              ["final_text"; "slug"; "step_names"; "step_texts"] ++ page_methods →
            check_step cls entry output console =
              ([], Raise (fault_exn (other_attribute cls (entry_step_name entry)))))
      as Hother.
    { intros Hnotin. unfold check_step, page_getattr. rewrite Hnone.
      unfold page_methods in Hnotin. simpl in Hnotin.
      rewrite !not_elem_of_cons in Hnotin.
      destruct Hnotin as (H1 & H2 & H3 & H4 & H5 & H6 & H7 & H8 & _).
      apply String.eqb_neq in H1, H2, H3, H4. rewrite H1, H2, H3, H4.
      rewrite bool_decide_eq_false_2; [reflexivity |].
      unfold page_methods. rewrite !not_elem_of_cons.
      repeat split; try done. apply not_elem_of_nil. }
    split; [exact Hbound | split; [exact Hother |]].
    destruct (decide (entry_step_name entry ∈
                ["final_text"; "slug"; "step_names"; "step_texts"] ++ page_methods))
      as [Hin | Hnotin].
    + exists TypeError. split; [by apply Hbound | discriminate].
    + eexists. split; [by apply Hother |].
      destruct (other_attribute cls (entry_step_name entry)); discriminate.
  - intros c Hsome s. rewrite (check_step_found _ _ _ _ _ Hsome). cbv zeta.
    fold s. split.
    + intros Habs. unfold new_step. by rewrite Habs.
    + intros [impl Himpl] _.
      assert ((new_step c s;;
               except_SyntaxError (check_with_messages c s) (mret (PyBool false))) =
              except_SyntaxError (check_with_messages c s) (mret (PyBool false)))
        as ->.
      { unfold new_step. by rewrite Himpl, bind_ret. }
      unfold except_SyntaxError.
      destruct (check_with_messages c s) as [t [v|e]]; simpl.
      * split; [done | split; [done | discriminate]].
      * split; [| split; [discriminate |]].
        -- intros e' [= <-] Hne. by destruct e.
        -- intros [= ->]. by rewrite app_nil_r.
Qed.

(** X2: a parse fault in the re-check of a message class decides the
    verdict. When the check of the step has returned (whatever it
    returned), the loop has passed over the message classes before [m], the
    flag of [m] equals the result and its re-check raises [SyntaxError],
    [check_with_messages] raises it and [check_step] answers [False]. *)
Theorem recheck_parse_fault_gives_false
    (cls : page) (entry : code_entry) (output : pyval) (console : gmap string pyval)
    (c : step_class) (r : pyval) (before after : list step_attrs) (m : step_attrs) :
  let s := {| input := entry_input entry; result := output;
              code_source := entry_source entry; console_locals := console |} in
  page_dict cls !! entry_step_name entry = Some c →
  unexpected_code_source c s = false →
  outcome (run_check c s) = Ok r →
  messages c = before ++ m :: after →
  Forall (passes_over (normalize r) s) before →
  eq_bool (normalize r) (after_success m) = true →
  outcome (check_message m s) = Raise SyntaxError →
  outcome (check_with_messages c s) = Raise SyntaxError ∧
  outcome (check_step cls entry output console) = Ok (PyBool false).
Proof.
  intros s Hlook Hsrc Hr Hms Hbefore Hflag Hraise.
  assert (outcome (check_with_messages c s) = Raise SyntaxError) as Hcwm.
  { unfold check_with_messages. rewrite Hsrc, (bind_Ok _ _ _ Hr). simpl.
    rewrite Hms, (scan_messages_passes_over _ _ _ _ Hbefore).
    by apply scan_messages_recheck_raises. }
  split; [exact Hcwm |].
  rewrite (check_step_found _ _ _ _ _ Hlook). cbv zeta. fold s.
  assert (is_Some (check c)) as [impl Himpl].
  { unfold run_check in Hr. destruct (check c); [by eexists | discriminate]. }
  unfold new_step. rewrite Himpl, bind_ret.
  unfold except_SyntaxError. fold (outcome (check_with_messages c s)).
  by rewrite Hcwm.
Qed.

(** X3: a message class is re-checked only if its flag equals the result.
    When no message class of the step has the normalized result of the
    check as its [after_success], [check_with_messages] runs nothing after
    the check: its trace is the trace of the check and its verdict the
    normalized result. *)
Theorem no_recheck_when_flags_differ (c : step_class) (s : submission) (r : pyval) :
  unexpected_code_source c s = false →
  outcome (run_check c s) = Ok r →
  (∀ m, m ∈ messages c → eq_bool (normalize r) (after_success m) = false) →
  check_with_messages c s = (trace (run_check c s), Ok (normalize r)).
Proof.
  intros Hsrc Hr Hall. unfold check_with_messages.
  rewrite Hsrc, (bind_Ok _ _ _ Hr). cbv zeta.
  rewrite (scan_messages_unconsulted _ _ _ Hall). simpl. by rewrite app_nil_r.
Qed.

(** X4: the re-check of a message class passes on any true value, the
    message about case included: a message class checked by
    [VerbatimStep.check] whose program matches the submission only after
    lower-casing fires when its flag equals the result. *)
Theorem case_insensitive_recheck_fires (m : step_attrs) (s : submission) (r : pyval) :
  check m = Some VerbatimCheck →
  eq_bool r (after_success m) = true →
  outcome (tree_matches s (program m)) = Ok (message_dict case_sensitive_message) →
  fires r s m ∧
  ∀ rest, outcome (scan_messages (m :: rest) r s) = Ok (message m).
Proof.
  intros Himpl Hflag Hmatch.
  assert (fires r s m) as Hfires.
  { split; [exact Hflag |]. exists (message_dict case_sensitive_message).
    split; [| reflexivity].
    unfold check_message, new_step, run_check. rewrite Himpl, bind_ret.
    unfold matches_program. run_unfold. simpl.
    destruct (tree_matches s (program m)) as [t [v|e]]; simpl in *; congruence. }
  split; [exact Hfires |]. intros rest. by apply scan_messages_fires.
Qed.

(** X5: the outcomes of [tree_matches]. It parses the submission, then the
    template, and the two lower-cased texts only when the first comparison
    fails; a text that does not parse raises [SyntaxError] at that point.
    On an exact match the trace has the first two parses only; when
    neither comparison succeeds the result is [None]; and a result is
    always [True], the message about case or [None]. *)
Theorem tree_matches_outcomes (s : submission) (template : string) :
  (∀ p, ast_parse (input s) = Some p → ast_parse template = None →
     tree_matches s template =
       ([EvParse (input s); EvParse template], Raise SyntaxError)) ∧
  (∀ p t, ast_parse (input s) = Some p → ast_parse template = Some t →
     is_ast_like p t = true →
     tree_matches s template =
       ([EvParse (input s); EvParse template], Ok (PyBool true))) ∧
  (∀ p t, ast_parse (input s) = Some p → ast_parse template = Some t →
     is_ast_like p t = false →
     ast_parse (str_lower (input s)) = None →
     tree_matches s template =
       ([EvParse (input s); EvParse template; EvParse (str_lower (input s))],
        Raise SyntaxError)) ∧
  (∀ p t p' t', ast_parse (input s) = Some p → ast_parse template = Some t →
     is_ast_like p t = false →
     ast_parse (str_lower (input s)) = Some p' →
     ast_parse (str_lower template) = Some t' →
     is_ast_like p' t' = false →
     tree_matches s template =
       ([EvParse (input s); EvParse template; EvParse (str_lower (input s));
         EvParse (str_lower template)], Ok PyNone)) ∧
  (∀ v, outcome (tree_matches s template) = Ok v →
     v = PyBool true ∨ v = message_dict case_sensitive_message ∨ v = PyNone).
Proof.
  unfold tree_matches, tree, parse. run_unfold.
  split; [| split; [| split; [| split]]].
  - intros p Hp Ht. simpl. rewrite Hp. simpl. by rewrite Ht.
  - intros p t Hp Ht Hlike. simpl. rewrite Hp. simpl. rewrite Ht. simpl.
    by rewrite Hlike.
  - intros p t Hp Ht Hdiff Hlow. simpl. rewrite Hp. simpl. rewrite Ht. simpl.
    rewrite Hdiff. simpl. by rewrite Hlow.
  - intros p t p' t' Hp Ht Hdiff Hp' Ht' Hdiff'. simpl.
    rewrite Hp. simpl. rewrite Ht. simpl. rewrite Hdiff. simpl.
    rewrite Hp'. simpl. rewrite Ht'. simpl. by rewrite Hdiff'.
  - intros v. simpl.
    destruct (ast_parse (input s)) as [p|]; simpl; [| discriminate].
    destruct (ast_parse template) as [t|]; simpl; [| discriminate].
    destruct (is_ast_like p t); simpl; [intros [= <-]; auto |].
    destruct (ast_parse (str_lower (input s))) as [p'|]; simpl; [| discriminate].
    destruct (ast_parse (str_lower template)) as [t'|]; simpl; [| discriminate].
    destruct (is_ast_like p' t'); simpl; intros [= <-]; auto.
Qed.

End DispatchProperties.

(** ** Further properties of the exercises *)

Lemma append_cons (x : ascii) (a b : string) :
  String x a +:+ b = String x (a +:+ b).
Proof. reflexivity. Qed.

Lemma append_nil (b : string) : EmptyString +:+ b = b.
Proof. reflexivity. Qed.

Lemma length_append (a b : string) :
  String.length (a +:+ b) = String.length a + String.length b.
Proof.
  induction a as [|x a IH]; [done |]. rewrite append_cons. simpl. by rewrite IH.
Qed.

Lemma append_nonempty (a b : string) : b ≠ EmptyString → a +:+ b ≠ EmptyString.
Proof. destruct a; [by rewrite append_nil | by rewrite append_cons]. Qed.

Lemma append_inj_r (a b c : string) : a +:+ c = b +:+ c → a = b.
Proof.
  revert b. induction a as [|x a IH]; intros [|y b]; [done | | |].
  - rewrite append_nil, append_cons. intros Hc. exfalso.
    assert (String.length c = String.length (String y (b +:+ c))) as Hlen
      by (by rewrite <- Hc).
    simpl in Hlen. rewrite length_append in Hlen. lia.
  - rewrite append_nil, append_cons. intros Hc. exfalso.
    assert (String.length (String x (a +:+ c)) = String.length c) as Hlen
      by (by rewrite Hc).
    simpl in Hlen. rewrite length_append in Hlen. lia.
  - rewrite !append_cons. intros [= -> Hc]. f_equal. by apply IH.
Qed.

Lemma no_comma_separator (a b x y : string) :
  no_comma a = true → no_comma b = true →
  a +:+ ", " +:+ x = b +:+ ", " +:+ y → a = b ∧ x = y.
Proof.
  revert b. induction a as [|c a IH]; intros [|d b]; simpl.
  - rewrite !append_nil, !append_cons, !append_nil. intros _ _ [= ->]. done.
  - rewrite append_nil, !append_cons.
    intros _ Hb [= <- _]. by rewrite Ascii.eqb_refl in Hb.
  - rewrite append_nil, !append_cons.
    intros Ha _ [= -> _]. by rewrite Ascii.eqb_refl in Ha.
  - rewrite !(append_cons _ _ (", " +:+ _)). intros Ha Hb [= -> Heq].
    apply andb_true_iff in Ha as [_ Ha]. apply andb_true_iff in Hb as [_ Hb].
    destruct (IH b Ha Hb Heq) as [-> ->]. done.
Qed.

Lemma no_comma_whole (a b y : string) :
  no_comma a = true → a ≠ b +:+ ", " +:+ y.
Proof.
  revert a. induction b as [|d b IH]; intros [|c a]; simpl.
  - rewrite append_nil, append_cons. done.
  - rewrite append_nil, append_cons.
    intros Ha [= -> _]. by rewrite Ascii.eqb_refl in Ha.
  - rewrite append_cons. done.
  - rewrite append_cons.
    intros Ha [= -> Heq]. apply andb_true_iff in Ha as [_ Ha]. by apply (IH a).
Qed.

(** [", ".join] loses nothing on plain names. *)
Lemma join_comma_inj (l1 l2 : list string) :
  Forall (λ n, plain_name n = true) l1 →
  Forall (λ n, plain_name n = true) l2 →
  join_comma l1 = join_comma l2 → l1 = l2.
Proof.
  assert (∀ n, plain_name n = true → n ≠ EmptyString ∧ no_comma n = true) as Hplain.
  { intros n Hn. apply andb_true_iff in Hn as [Hne Hnc]. split; [| done].
    intros ->. done. }
  revert l2. induction l1 as [|n l1 IH]; intros l2 H1 H2.
  - destruct l2 as [|m [|m' l2]]; simpl; [done | |].
    + intros <-. apply Forall_cons in H2 as [Hm _].
      by destruct (Hplain _ Hm).
    + intros Heq. symmetry in Heq. by apply append_nonempty in Heq.
  - apply Forall_cons in H1 as [Hn H1]. destruct (Hplain _ Hn) as [Hne Hnc].
    destruct l2 as [|m l2].
    { destruct l1; simpl; [done |]. intros Heq. by apply append_nonempty in Heq. }
    apply Forall_cons in H2 as [Hm H2]. destruct (Hplain _ Hm) as [Hme Hmc].
    destruct l1 as [|n' l1], l2 as [|m' l2].
    + simpl. by intros ->.
    + intros Heq. exfalso. by apply (no_comma_whole n m (join_comma (m' :: l2))).
    + intros Heq. exfalso. symmetry in Heq.
      by apply (no_comma_whole m n (join_comma (n' :: l1))).
    + intros Heq.
      change (n +:+ ", " +:+ join_comma (n' :: l1) =
              m +:+ ", " +:+ join_comma (m' :: l2)) in Heq.
      apply no_comma_separator in Heq as [-> Heq]; [| done | done].
      f_equal. by apply IH.
Qed.

Section ExerciseProperties.
Context `{Collaborators}.

(** X6: the comparison of signatures in [ExerciseStep.check] is a
    comparison of parameter names. For a solution with a first parameter,
    the text [basic_signature] gives for the learner's function equals the
    one it gives for the bound method [self.solution] exactly when the
    names of the learner's parameters are those of the solution without the
    first; annotations play no part. *)
Theorem signatures_equal_iff_names_equal (f sol : function) :
  fn_params sol ≠ [] →
  Forall (λ n, plain_name n = true) (fn_params f).*1 →
  Forall (λ n, plain_name n = true) (fn_params sol).*1 →
  outcome (basic_signature (Plain f) false) = outcome (basic_signature (Bound sol) false)
  ↔ (fn_params f).*1 = drop 1 (fn_params sol).*1.
Proof.
  intros Hne Hf Hsol.
  rewrite (basic_signature_bound _ Hne), !basic_signature_plain.
  unfold outcome. simpl snd. split.
  - intros [= Heq]. rewrite !append_nil in Heq. apply append_inj_r in Heq.
    apply join_comma_inj in Heq; [done | done |].
    by apply Forall_drop.
  - by intros ->.
Qed.

Lemma arg_names_Ok (c : step_attrs) (f : function) :
  solution c = Some f →
  arg_names c = ([EvSignature (fn_name f)], Ok (drop 1 (fn_params f).*1)).
Proof.
  intros Hsol. unfold arg_names, get_solution. rewrite Hsol, bind_ret.
  reflexivity.
Qed.

(** What one test gives, for a class with a solution. *)
Lemma test_value_cases (c : step_attrs) (f : function) (test : test_inputs * pyval) :
  solution c = Some f →
  match positional_inputs test.1 with
  | None => ∃ d, test.1 = InputsDict d ∧ outcome (test_value c test) = Ok (d, test.2)
  | Some l =>
      if bool_decide (length (drop 1 (fn_params f).*1) = length l)
      then outcome (test_value c test) = Ok (zip (drop 1 (fn_params f).*1) l, test.2)
      else outcome (test_value c test) = Raise AssertionError
  end.
Proof.
  intros Hsol. destruct test as [[d | l | v] result]; simpl.
  - by exists d.
  - rewrite (arg_names_Ok _ _ Hsol). run_unfold. simpl.
    by destruct (bool_decide _).
  - rewrite (arg_names_Ok _ _ Hsol). run_unfold. simpl.
    by destruct (bool_decide _).
Qed.

(** X7: what [test_values] yields. For a class with a solution, it yields
    one pair per declared test, with the declared result; named inputs are
    yielded as they are, and positional inputs are named, in order, by the
    parameters of the solution without the first. *)
Theorem test_values_named_by_arguments (c : step_attrs) (f : function)
    (values : list (list (string * pyval) * pyval)) :
  solution c = Some f →
  outcome (test_values c) = Ok values →
  values.*2 = (tests c).*2 ∧
  Forall2 (λ test value,
     match positional_inputs test.1 with
     | None => test.1 = InputsDict value.1
     | Some l => value.1.*1 = drop 1 (fn_params f).*1 ∧ value.1.*2 = l
     end) (tests c) values.
Proof.
  intros Hsol Hvalues. unfold test_values in Hvalues.
  apply for_list_Ok in Hvalues.
  induction Hvalues as [|test value tests values Hvalue _ [IH2 IH]];
    [by split; [| constructor] |].
  pose proof (test_value_cases c f test Hsol) as Hcases.
  destruct (positional_inputs test.1) as [l|] eqn:Hpos.
  - destruct (bool_decide (length (drop 1 (fn_params f).*1) = length l)) eqn:Hlen;
      [| congruence].
    apply bool_decide_eq_true in Hlen.
    rewrite Hcases in Hvalue. injection Hvalue as <-.
    split; [rewrite !fmap_cons; by f_equal |].
    constructor; [| exact IH]. cbv beta. rewrite Hpos. simpl.
    split; [apply fst_zip; lia | apply snd_zip; lia].
  - destruct Hcases as (d & Hd & Hok). rewrite Hok in Hvalue.
    injection Hvalue as <-.
    split; [rewrite !fmap_cons; by f_equal |].
    constructor; [| exact IH]. cbv beta. by rewrite Hpos.
Qed.

(** X8: a positional test with the wrong number of values stops
    [test_values]. For a class with a solution, if some declared test gives
    positional values whose number is not the number of parameters of the
    solution without the first, [test_values] raises [AssertionError]. *)
Theorem test_values_arity_fault (c : step_attrs) (f : function)
    (test : test_inputs * pyval) (l : list pyval) :
  solution c = Some f →
  test ∈ tests c →
  positional_inputs test.1 = Some l →
  length l ≠ length (drop 1 (fn_params f).*1) →
  outcome (test_values c) = Raise AssertionError.
Proof.
  intros Hsol Hin Hpos Hlen. unfold test_values.
  induction (tests c) as [|test' tests IH]; [by inversion Hin |].
  simpl.
  pose proof (test_value_cases c f test' Hsol) as Hcases.
  assert (outcome (test_value c test') = Raise AssertionError ∨
          ∃ v, outcome (test_value c test') = Ok v) as [Hraise | [v Hv]].
  { destruct (positional_inputs test'.1) as [l'|].
    - destruct (bool_decide _); [right | left]; eauto.
    - destruct Hcases as (d & _ & Hok). eauto. }
  { by rewrite (bind_Raise _ _ _ Hraise). }
  rewrite (bind_Ok _ _ _ Hv). simpl.
  apply elem_of_cons in Hin as [-> | Hin].
  - exfalso. rewrite Hpos in Hcases.
    rewrite bool_decide_eq_false_2 in Hcases by congruence. congruence.
  - specialize (IH Hin).
    by rewrite (bind_Raise _ _ _ IH).
Qed.



End ExerciseProperties.

(** ** Further properties of build-time normalization *)

Lemma run_members_elem (l : list (string * run (list step_attrs))) ms m :
  outcome (run_members l) = Ok ms → m ∈ ms →
  ∃ e out, e ∈ l ∧ outcome e.2 = Ok out ∧ m ∈ out.
Proof.
  intros Hms Hin. apply run_members_Ok in Hms as (outs & Hall & ->).
  induction Hall as [|e out l outs He _ IH]; [by inversion Hin |].
  simpl in Hin. apply elem_of_app in Hin as [Hin | Hin].
  - exists e, out. split; [left | done].
  - destruct (IH Hin) as (e' & out' & He' & Hout' & Hm).
    exists e', out'. split; [by right | done].
Qed.

Section NormalizerProperties.
Context `{Collaborators} `{Authoring}.

(** Everything [clean_own] has checked and set when it returns. *)
Lemma clean_own_inv (cls cls' : step_attrs) :
  outcome (clean_own cls) = Ok cls' →
  let text0 := if nonempty (text cls) then text cls else doc cls in
  let text1 :=
    if contains "__program_" text0 then
      re_sub_multiline " *__program_indented__" (indent (program cls') "    ")
        (str_replace text0 "__program__" (program cls'))
    else text0 in
  nonempty text0 = true ∧
  (is_Some (dict_solution cls) → has_tests (tests cls) = true) ∧
  (program_in_text cls = true → contains "__program_" text0 = true) ∧
  nonempty (program cls') = true ∧
  (dict_solution cls = None → program cls' = strip (program cls)) ∧
  contains "__program_" text1 = false ∧
  cls' = setattrs
           (match dict_solution cls with
            | Some sol => set_solution (get_solution_function sol) cls
            | None => cls
            end)
           (markdown (strip (dedent text1))) (program cls')
           (markdown <$> match hints cls with
                         | HintsText s => splitlines (strip s)
                         | HintsList l => l
                         end).
Proof.
  unfold clean_own. intros Hc.
  apply bind_outcome_Ok in Hc as ([] & _ & Hc).
  apply bind_outcome_Ok in Hc as ([] & Htext & Hc). apply assert_Ok in Htext.
  apply bind_outcome_Ok in Hc as ([] & _ & Hc).
  apply bind_outcome_Ok in Hc as ([cls1 program1] & Hmid & Hc).
  apply bind_outcome_Ok in Hc as ([] & Hprogram & Hc). apply assert_Ok in Hprogram.
  apply bind_outcome_Ok in Hc as (text1 & Htext1 & Hc).
  apply bind_outcome_Ok in Hc as ([] & Hleft & Hc). apply assert_Ok in Hleft.
  apply negb_true_iff in Hleft.
  injection Hc as <-. simpl.
  assert (cls1 = match dict_solution cls with
                 | Some sol => set_solution (get_solution_function sol) cls
                 | None => cls
                 end ∧
          (is_Some (dict_solution cls) → has_tests (tests cls) = true) ∧
          (dict_solution cls = None → program1 = strip (program cls)))
    as (-> & Htests & Hstrip).
  { destruct (dict_solution cls) as [sol|].
    - apply bind_outcome_Ok in Hmid as ([] & Hassert & Hmid).
      apply assert_Ok in Hassert.
      apply bind_outcome_Ok in Hmid as (values & _ & Hmid).
      destruct values as [|[inputs ?] ?]; [discriminate |].
      apply bind_outcome_Ok in Hmid as (program2 & _ & [= <- _]).
      done.
    - apply bind_outcome_Ok in Hmid as (program2 & Hclean & [= <- <-]).
      split; [done | split; [by intros [? ?] |]]. intros _.
      unfold clean_program in Hclean. rewrite bind_ret in Hclean.
      apply bind_outcome_Ok in Hclean as ([] & _ & [= <-]). done. }
  assert (program_in_text
            (match dict_solution cls with
             | Some sol => set_solution (get_solution_function sol) cls
             | None => cls
             end) = program_in_text cls) as Hpit
    by (by destruct (dict_solution cls)).
  rewrite Hpit in Htext1.
  destruct (contains "__program_"
              (if nonempty (text cls) then text cls else doc cls)) eqn:Hcontains.
  - injection Htext1 as <-. done.
  - apply bind_outcome_Ok in Htext1 as ([] & Hnot & [= <-]).
    apply assert_Ok, negb_true_iff in Hnot. rewrite Hnot.
    rewrite Hcontains in Hleft. done.
Qed.

(** X10: what [clean_step_class] requires of a declaration besides its
    solution or program. A class it normalizes has a text or a docstring,
    has tests when it declares a solution, and has the program placeholder
    in its text when [program_in_text] is set; a class with exactly one of
    solution and program but with neither text nor docstring fails with
    [AssertionError] before anything else is done. *)
Theorem normalization_requirements :
  (∀ d c,
     outcome (clean_step_class d) = Ok c →
     let cls := decl_attrs d in
     let source := if nonempty (text cls) then text cls else doc cls in
     nonempty source = true ∧
     (is_Some (dict_solution cls) → has_tests (tests cls) = true) ∧
     (program_in_text cls = true → contains "__program_" source = true)) ∧
  (∀ cls members,
     exactly_one cls = true →
     text cls = EmptyString → doc cls = EmptyString →
     clean_step_class (ClassDecl cls members) = ([], Raise AssertionError)).
Proof.
  split.
  - intros [cls members] c Hc. unfold clean_step_class in Hc.
    apply clean_prepared_Ok in Hc as (cls' & ms & Hown & _ & _).
    by apply clean_own_inv in Hown as (? & ? & ? & _).
  - intros cls members Hone Htext Hdoc.
    unfold clean_step_class. rewrite clean_prepared_unfold.
    assert (clean_own (id cls) = ([], Raise AssertionError)) as ->; [| done].
    unfold clean_own, id. fold (exactly_one cls). rewrite Hone, Htext, Hdoc.
    reflexivity.
Qed.


(** X12: the message classes of a normalized step. Each is the class
    [inner_cls] made of a message class nested in the declaration (whose
    name it keeps as its label) and of the step. Its tests are those of
    the nested class or, when it declares none, those of the step; its
    [after_success], [check] and [expected_code_source] are those of the
    step for the attributes that the method resolution order finds in the
    step first, and those of the nested class otherwise, and so is its
    [solution], which for a nested class that declares one is the function
    [get_solution_function] gives; it has a program, no solution of its
    own, and is an exercise when the nested class or the step is. *)
Theorem message_classes_of_normalized_step (d : class_decl) (c : step_class)
    (m : step_attrs) :
  outcome (clean_step_class d) = Ok c →
  m ∈ messages c →
  ∃ inner,
    inner ∈ decl_members d ∧
    is_message (decl_attrs inner) = true ∧
    name m = name (decl_attrs inner) ∧
    __name__ m = "inner_cls" ∧
    tests m = (if has_tests (tests (decl_attrs inner))
               then tests (decl_attrs inner) else tests (decl_attrs d)) ∧
    after_success m = resolve (decl_attrs inner) c attr_after_success after_success ∧
    check m = resolve (decl_attrs inner) c attr_check check ∧
    expected_code_source m =
      resolve (decl_attrs inner) c attr_expected_code_source expected_code_source ∧
    solution m =
      (if bool_decide (attr_solution ∈ step_first (decl_attrs inner))
       then solution c
       else match dict_solution (decl_attrs inner) with
            | Some sol => Some (get_solution_function sol)
            | None => solution (decl_attrs inner)
            end) ∧
    nonempty (program m) = true ∧
    dict_solution m = None ∧
    is_message m = true ∧
    is_exercise m = is_exercise (decl_attrs inner) || is_exercise c.
Proof.
  destruct d as [cls members]. unfold clean_step_class. intros Hc Hm.
  apply clean_prepared_Ok in Hc as (cls' & ms & Hown & Hms & ->). simpl in Hm.
  destruct (run_members_elem _ _ _ Hms Hm) as (e & out & He & Hout & Hmout).
  rewrite getmembers_Permutation in He.
  apply list_elem_of_fmap in He as (inner & -> & Hinner).
  exists inner. split; [exact Hinner |].
  destruct inner as [a inner_members]. simpl in Hout |- *.
  apply clean_member_Ok in Hout
    as [(Hmsg & x & m' & Hclean & Hown' & ->) | (_ & _ & ->)];
    [| by apply elem_of_nil in Hmout].
  apply list_elem_of_singleton in Hmout as ->.
  split; [exact Hmsg |].
  apply fmap_outcome_Ok in Hclean as (ci & Hci & ->).
  apply clean_prepared_Ok in Hci as (a' & ms' & Ha' & _ & ->). simpl in Hown'.
  apply clean_own_inv in Hown' as (_ & _ & _ & Hprogram & _ & _ & Heq).
  apply clean_own_inv in Ha' as (_ & _ & _ & _ & _ & _ & Heqa).
  apply clean_own_inv in Hown as (_ & _ & _ & _ & _ & _ & Heqc).
  unfold id in Heqc.
  assert (tests cls' = tests cls) as Htests.
  { rewrite Heqc. simpl. by destruct (dict_solution cls). }
  assert (step_first a' = step_first a) as Hfirst.
  { rewrite Heqa. simpl. by destruct (dict_solution a). }
  repeat apply conj; try exact Hprogram;
    rewrite Heq; simpl; unfold resolve; rewrite ?Hfirst;
    try match goal with
        | |- context [bool_decide ?P] => destruct (bool_decide P); [reflexivity |]
        end;
    try rewrite Heqa; simpl;
    destruct (dict_solution a); simpl; rewrite ?Htests; reflexivity.
Qed.

(** *** Pages *)

Lemma built_steps (body : list (string * class_decl)) steps :
  outcome (for_list body (λ '(key, value),
             step ← clean_step_class value; mret (key, step))) = Ok steps →
  Forall2 (λ kd kc, kc.1 = kd.1 ∧ outcome (clean_step_class kd.2) = Ok kc.2)
    body steps.
Proof.
  intros Hsteps. apply for_list_Ok in Hsteps.
  induction Hsteps as [|[k v] [k' c] l ys Hy _ IH]; constructor; [| exact IH].
  apply bind_outcome_Ok in Hy as (c' & Hc & [= <- <-]). done.
Qed.

Lemma PageMeta_init_Ok class_name page_slug body closing built :
  outcome (PageMeta_init class_name page_slug body closing) = Ok (Some built) →
  ∃ steps ft,
    closing = Some ft ∧
    Forall2 (λ kd kc, kc.1 = kd.1 ∧ outcome (clean_step_class kd.2) = Ok kc.2)
      body steps ∧
    built = {| slug := default class_name page_slug;
               page_dict := list_to_map steps;
               step_names := steps.*1 ++ ["final_text"];
               step_texts := ((λ step, text (attrs step.2)) <$> steps)
                             ++ [markdown (strip ft)];
               final_text := markdown (strip ft) |}.
Proof.
  unfold PageMeta_init.
  destruct (String.eqb class_name "Page"); [discriminate |].
  intros Hpage. apply bind_outcome_Ok in Hpage as (steps & Hsteps & Hpage).
  destruct closing as [ft|]; [| discriminate].
  apply bind_outcome_Ok in Hpage as ([] & _ & [= <-]).
  exists steps, ft. split; [done | split; [by apply built_steps | done]].
Qed.

Lemma built_steps_keys (body : list (string * class_decl))
    (steps : list (string * step_class)) :
  Forall2 (λ kd kc, kc.1 = kd.1 ∧ outcome (clean_step_class kd.2) = Ok kc.2)
    body steps →
  steps.*1 = body.*1.
Proof.
  induction 1 as [|kd kc body steps [Hk _] _ IH]; [done |].
  rewrite !fmap_cons. by f_equal.
Qed.

(** X13: what [PageMeta.__init__] records. The base class [Page] builds
    nothing, whatever its body; a page class without final text is never
    built; a page that is built has the names of its steps in the order of
    the class body followed by [final_text], as many texts as names, the
    rendered final text as the last of them, and the class name for slug
    unless it declares one. *)
Theorem page_build_records (class_name : string) (page_slug : option string)
    (body : list (string * class_decl)) (closing : option string) :
  (class_name = "Page" →
   PageMeta_init class_name page_slug body closing = ([], Ok None)) ∧
  (class_name ≠ "Page" → closing = None →
   ∀ built, outcome (PageMeta_init class_name page_slug body closing) ≠ Ok built) ∧
  (∀ built,
     outcome (PageMeta_init class_name page_slug body closing) = Ok (Some built) →
     step_names built = body.*1 ++ ["final_text"] ∧
     length (step_texts built) = length (step_names built) ∧
     last (step_texts built) = Some (final_text built) ∧
     (∃ ft, closing = Some ft ∧ final_text built = markdown (strip ft)) ∧
     slug built = default class_name page_slug).
Proof.
  split; [| split].
  - intros ->. reflexivity.
  - intros Hname -> built. unfold PageMeta_init.
    apply String.eqb_neq in Hname. rewrite Hname.
    destruct (for_list body _) as [t [steps|e]]; simpl; discriminate.
  - intros built Hbuilt.
    apply PageMeta_init_Ok in Hbuilt as (steps & ft & -> & Hsteps & ->). simpl.
    rewrite (built_steps_keys _ _ Hsteps).
    split; [done | split; [| split; [| split; [by exists ft | done]]]].
    + rewrite !length_app, !length_fmap. simpl.
      apply Forall2_length in Hsteps. lia.
    + apply last_snoc.
Qed.


End NormalizerProperties.

(** ** The registry of pages *)

Lemma bind_pure {A B} (a : A) (f : A → run B) : (([], Ok a) : run A) ≫= f = f a.
Proof. exact (bind_ret a f). Qed.

Lemma register_all_from (r : registry) (classes : list page) :
  page_slugs_list (foldl (λ r cls, register cls r) r classes)
    = page_slugs_list r ++ (slug <$> classes).
Proof.
  revert r. induction classes as [|cls classes IH]; intros r; simpl.
  - by rewrite app_nil_r.
  - rewrite IH. simpl. by rewrite <- app_assoc.
Qed.

Lemma register_all_slugs (classes : list page) :
  page_slugs_list (register_all classes) = slug <$> classes.
Proof. unfold register_all. by rewrite register_all_from. Qed.

Lemma register_all_other (r : registry) (classes : list page) (s : string) :
  s ∉ slug <$> classes →
  pages (foldl (λ r cls, register cls r) r classes) !! s = pages r !! s.
Proof.
  revert r. induction classes as [|cls classes IH]; intros r Hs; [done |].
  simpl. rewrite fmap_cons in Hs. apply not_elem_of_cons in Hs as [Hne Hs].
  rewrite IH by done. simpl. by rewrite lookup_insert_ne.
Qed.

Lemma register_all_pages (classes : list page) (i : nat) (cls : page) :
  NoDup (slug <$> classes) →
  classes !! i = Some cls →
  pages (register_all classes) !! slug cls = Some cls.
Proof.
  unfold register_all. generalize empty_registry.
  revert i. induction classes as [|cls' classes IH]; intros i r Hnd Hi; [done |].
  rewrite fmap_cons in Hnd. apply NoDup_cons in Hnd as [Hnotin Hnd].
  destruct i as [|i]; simpl in *.
  - injection Hi as ->. rewrite register_all_other by done.
    simpl. by rewrite lookup_insert_eq.
  - by apply (IH i).
Qed.

Lemma list_index_NoDup (l : list string) (i : nat) (x : string) :
  NoDup l → l !! i = Some x → list_index x l = Some i.
Proof.
  revert i. induction l as [|y l IH]; intros i Hnd Hi; [done |].
  apply NoDup_cons in Hnd as [Hnotin Hnd].
  destruct i as [|i]; simpl in *.
  - injection Hi as ->. by rewrite String.eqb_refl.
  - destruct (String.eqb y x) eqn:E.
    + apply String.eqb_eq in E as ->. exfalso. apply Hnotin.
      by eapply list_elem_of_lookup_2.
    + by rewrite (IH i).
Qed.

Lemma getitem_nat {A} (l : list A) (i : nat) :
  getitem l (Z.of_nat i) =
    match l !! i with
    | Some x => mret x
    | None => mthrow (OtherError "IndexError")
    end.
Proof.
  unfold getitem. cbv zeta.
  assert ((Z.of_nat i <? 0)%Z = false) as -> by (apply Z.ltb_ge; lia).
  assert ((0 <=? Z.of_nat i)%Z = true) as -> by (apply Z.leb_le; lia).
  rewrite Nat2Z.id. simpl.
  destruct (l !! i) as [x|] eqn:Hi.
  - apply lookup_lt_Some in Hi.
    by assert ((Z.of_nat i <? Z.of_nat (length l))%Z = true) as ->
      by (apply Z.ltb_lt; lia).
  - by destruct (Z.of_nat i <? Z.of_nat (length l))%Z.
Qed.

Lemma getitem_minus_one {A} (l : list A) :
  getitem l (-1) =
    match last l with
    | Some x => mret x
    | None => mthrow (OtherError "IndexError")
    end.
Proof.
  unfold getitem. cbv zeta. change (-1 <? 0)%Z with true. cbv iota.
  destruct l as [|x l _] using rev_ind; [done |].
  rewrite last_snoc, length_app. simpl.
  assert ((0 <=? -1 + Z.of_nat (length l + 1))%Z = true) as ->
    by (apply Z.leb_le; lia).
  assert ((-1 + Z.of_nat (length l + 1) <? Z.of_nat (length l + 1))%Z = true)
    as -> by (apply Z.ltb_lt; lia).
  simpl.
  replace (Z.to_nat (-1 + Z.of_nat (length l + 1))) with (length l) by lia.
  by rewrite list_lookup_middle.
Qed.

Lemma index_by_position (classes : list page) (i : nat) (cls : page) :
  NoDup (slug <$> classes) →
  classes !! i = Some cls →
  index (register_all classes) cls = ([], Ok i).
Proof.
  intros Hnd Hi. unfold index. rewrite register_all_slugs.
  erewrite list_index_NoDup; [done | done |].
  by rewrite list_lookup_fmap, Hi.
Qed.

Lemma neighbours_by_position (classes : list page) (i : nat) (cls : page) :
  NoDup (slug <$> classes) →
  classes !! i = Some cls →
  outcome (next_page (register_all classes) cls) =
    match classes !! S i with
    | Some next => Ok next
    | None => Raise (OtherError "IndexError")
    end ∧
  outcome (previous_page (register_all classes) cls) =
    match i with
    | S j => match classes !! j with
             | Some previous => Ok previous
             | None => Raise (OtherError "IndexError")
             end
    | O => match last classes with
           | Some final => Ok final
           | None => Raise (OtherError "IndexError")
           end
    end.
Proof.
  intros Hnd Hi.
  pose proof (index_by_position classes i cls Hnd Hi) as Hindex.
  assert (∀ j, outcome (s ← match (slug <$> classes) !! j with
                            | Some x => mret x
                            | None => mthrow (OtherError "IndexError")
                            end; pages_getitem (register_all classes) s) =
               match classes !! j with
               | Some found => Ok found
               | None => Raise (OtherError "IndexError")
               end) as Hat.
  { intros j. rewrite list_lookup_fmap.
    destruct (classes !! j) as [found|] eqn:Hj; simpl; [| done].
    unfold pages_getitem. by rewrite (register_all_pages _ j found). }
  split.
  - unfold next_page. rewrite Hindex, bind_pure.
    rewrite register_all_slugs.
    replace (Z.of_nat i + 1)%Z with (Z.of_nat (S i)) by lia.
    rewrite getitem_nat. apply Hat.
  - unfold previous_page. rewrite Hindex, bind_pure.
    rewrite register_all_slugs. destruct i as [|j].
    + change (Z.of_nat 0 - 1)%Z with (-1)%Z. rewrite getitem_minus_one.
      rewrite fmap_last.
      destruct (last classes) as [final|] eqn:Hlast; simpl; [| done].
      apply last_Some in Hlast as [l' ->].
      unfold pages_getitem.
      rewrite (register_all_pages _ (length l') final); [done | done |].
      by rewrite list_lookup_middle.
    + replace (Z.of_nat (S j) - 1)%Z with (Z.of_nat j) by lia.
      rewrite getitem_nat. apply Hat.
Qed.

(** X15: pages are found by position. Once page classes with distinct
    slugs are defined, [index] of the page defined at position [i] is [i];
    its [next_page] is the page defined after it, and raises [IndexError]
    for the last page; its [previous_page] is the page defined before it,
    and for the first page, whose index minus one is [-1], the last
    page. *)
Theorem pages_found_by_position (classes : list page) (i : nat) (cls : page) :
  NoDup (slug <$> classes) →
  classes !! i = Some cls →
  index (register_all classes) cls = ([], Ok i) ∧
  outcome (next_page (register_all classes) cls) =
    match classes !! S i with
    | Some next => Ok next
    | None => Raise (OtherError "IndexError")
    end ∧
  outcome (previous_page (register_all classes) cls) =
    match i with
    | S j => match classes !! j with
             | Some previous => Ok previous
             | None => Raise (OtherError "IndexError")
             end
    | O => match last classes with
           | Some final => Ok final
           | None => Raise (OtherError "IndexError")
           end
    end.
Proof.
  intros Hnd Hi.
  split; [by apply index_by_position | by apply neighbours_by_position].
Qed.

(** X16: [next_page] and [previous_page] undo each other. Among page
    classes with distinct slugs, if the next page of [cls] is [next], the
    previous page of [next] is [cls]. *)
Theorem previous_of_next (classes : list page) (cls next : page) :
  NoDup (slug <$> classes) →
  cls ∈ classes →
  outcome (next_page (register_all classes) cls) = Ok next →
  outcome (previous_page (register_all classes) next) = Ok cls.
Proof.
  intros Hnd Hin Hnext. apply list_elem_of_lookup_1 in Hin as [i Hi].
  destruct (neighbours_by_position classes i cls Hnd Hi) as (Hn & Hp).
  rewrite Hn in Hnext.
  destruct (classes !! S i) as [q|] eqn:Hq; [| discriminate].
  injection Hnext as ->.
  destruct (neighbours_by_position classes (S i) next Hnd Hq) as (_ & Hp').
  rewrite Hp'. by rewrite Hi.
Qed.

(** ** The introspection of a built page *)



Section IntrospectionProperties.
Context `{Collaborators} `{Authoring}.


End IntrospectionProperties.

(** ** The tree of a submission *)

Section TreeProperties.
Context `{AstStructure}.

(** X18: what [function_tree] finds. For a solution named [solution] it
    raises [ValueError] before the submission is parsed. Otherwise, when it
    returns a node, the submission parses, the node is a function
    definition with the name of the solution among the nodes of its tree,
    and no other node is; when the tree has no such definition it raises
    the exception of [littleutils.only]. *)
Theorem function_tree_finds_the_definition (c : step_attrs) (s : submission)
    (sol : function) :
  solution c = Some sol →
  (fn_name sol = "solution" → function_tree c s = ([], Raise ValueError)) ∧
  (fn_name sol ≠ "solution" →
   (∀ node, outcome (function_tree c s) = Ok node →
      ∃ t, ast_parse (input s) = Some t ∧
           node ∈ ast_walk t ∧
           function_def_name node = Some (fn_name sol) ∧
           ∀ other, other ∈ ast_walk t →
                    function_def_name other = Some (fn_name sol) → other = node) ∧
   (∀ t, ast_parse (input s) = Some t →
      (∀ node, node ∈ ast_walk t → function_def_name node ≠ Some (fn_name sol)) →
      function_tree c s = ([EvParse (input s)], Raise not_one_value)) ∧
   (ast_parse (input s) = None →
    function_tree c s = ([EvParse (input s)], Raise SyntaxError))).
Proof.
  intros Hsol.
  assert (∀ k : function → run ast, get_solution c ≫= k = k sol) as Hstart.
  { intros k. unfold get_solution. by rewrite Hsol, bind_ret. }
  unfold function_tree. rewrite Hstart. cbv zeta. split.
  - intros ->. reflexivity.
  - intros Hname. apply String.eqb_neq in Hname. rewrite Hname.
    unfold tree. run_unfold. simpl. split; [| split].
    + intros node.
      destruct (ast_parse (input s)) as [t|]; simpl; [| discriminate].
      destruct (filter _ (ast_walk t)) as [|found [|? ?]] eqn:Hfilter;
        simpl; try discriminate.
      intros [= <-]. exists t. split; [done |].
      assert (∀ x, x ∈ [found] ↔
                function_def_name x = Some (fn_name sol) ∧ x ∈ ast_walk t) as Hin.
      { intros x. rewrite <- Hfilter.
        apply (list_elem_of_filter
                 (λ node, function_def_name node = Some (fn_name sol))). }
      destruct (proj1 (Hin found)) as [Hdef Hwalk]; [left |].
      split; [done | split; [done |]].
      intros other Hother Hsame.
      by apply list_elem_of_singleton, Hin.
    + intros t Ht Hnone. rewrite Ht. simpl.
      assert (filter (λ node, function_def_name node = Some (fn_name sol))
                (ast_walk t) = []) as ->; [| done].
      destruct (filter _ (ast_walk t)) as [|x l] eqn:Hfilter; [done |].
      assert (x ∈ filter (λ node, function_def_name node = Some (fn_name sol))
                (ast_walk t)) as Hx by (rewrite Hfilter; left).
      apply (list_elem_of_filter
               (λ node, function_def_name node = Some (fn_name sol))) in Hx
        as [Hdef Hwalk].
      by destruct (Hnone x).
    + intros Hparse. by rewrite Hparse.
Qed.

(** X19: the first statement and the search. [stmt] is the first element
    of the body of the tree, raises [IndexError] when the body is empty and
    [SyntaxError] when the submission does not parse; [search_ast] holds
    exactly when some node that [ast.walk] yields is like the template, so
    in particular when the node itself, which the walk starts with, is. *)
Theorem stmt_and_search (s : submission) :
  (∀ t, ast_parse (input s) = Some t → ast_body t = [] →
     stmt s = ([EvParse (input s)], Raise (OtherError "IndexError"))) ∧
  (∀ t first rest, ast_parse (input s) = Some t → ast_body t = first :: rest →
     stmt s = ([EvParse (input s)], Ok first)) ∧
  (ast_parse (input s) = None → stmt s = ([EvParse (input s)], Raise SyntaxError)) ∧
  (∀ node template,
     search_ast node template = true ↔
     ∃ child, child ∈ ast_walk node ∧ is_ast_like child template = true) ∧
  (∀ node template,
     node ∈ ast_walk node → is_ast_like node template = true →
     search_ast node template = true).
Proof.
  assert (∀ node template,
     search_ast node template = true ↔
     ∃ child, child ∈ ast_walk node ∧ is_ast_like child template = true) as Hsearch.
  { intros node template. unfold search_ast. rewrite existsb_exists.
    split; intros (child & Hin & Hlike); exists child;
      (split; [by apply list_elem_of_In | done]). }
  unfold stmt, tree. run_unfold.
  split; [| split; [| split; [| split]]].
  - intros t Ht Hbody. simpl. rewrite Ht. simpl. by rewrite Hbody.
  - intros t first rest Ht Hbody. simpl. rewrite Ht. simpl. by rewrite Hbody.
  - intros Hparse. simpl. by rewrite Hparse.
  - exact Hsearch.
  - intros node template Hin Hlike. apply Hsearch. by exists node.
Qed.

End TreeProperties.

(** ** The further properties on concrete classes and submissions *)

Lemma check_step_catches_syntax_errors_only_witness :
  check_step hello_page
    {| entry_step_name := "final_text"; entry_input := "print(1)";
       entry_source := "editor" |} PyNone ∅ = ([], Raise TypeError) ∧
  check_step hello_page
    {| entry_step_name := "goodbye"; entry_input := "print(1)";
       entry_source := "editor" |} PyNone ∅ = ([], Raise AttributeError) ∧
  check_step double_page
    {| entry_step_name := "double_exercise"; entry_input := "x = 1";
       entry_source := "editor" |} PyNone ∅
  = check_with_messages double_with_message (typed "x = 1").
Proof.
  split; [| split].
  - apply (check_step_catches_syntax_errors_only hello_page
             {| entry_step_name := "final_text"; entry_input := "print(1)";
                entry_source := "editor" |} PyNone ∅); [reflexivity | left].
  - rewrite (proj1 (proj2 (proj1 (check_step_catches_syntax_errors_only hello_page
             {| entry_step_name := "goodbye"; entry_input := "print(1)";
                entry_source := "editor" |} PyNone ∅) eq_refl))); [reflexivity |].
    apply (bool_decide_unpack _). vm_compute. exact I.
  - pose proof (proj2 (check_step_catches_syntax_errors_only double_page
             {| entry_step_name := "double_exercise"; entry_input := "x = 1";
                entry_source := "editor" |} PyNone ∅) double_with_message eq_refl)
      as Hstep.
    cbv zeta in Hstep. destruct Hstep as [_ Hstep].
    destruct Hstep as (_ & Hverdict & _); [by eexists | by eexists |].
    eapply Hverdict. vm_compute. reflexivity.
Defined.

Lemma recheck_parse_fault_gives_false_witness :
  outcome (run_check double_with_printed_one
             (typed_with "def double(x:" {[ "double" := PyFunc learner_double ]}))
    = Ok (PyBool true) ∧
  outcome (check_step printed_page
             {| entry_step_name := "double_exercise"; entry_input := "def double(x:";
                entry_source := "editor" |} PyNone
             {[ "double" := PyFunc learner_double ]})
    = Ok (PyBool false).
Proof.
  split; [vm_compute; reflexivity |].
  apply (recheck_parse_fault_gives_false printed_page
           {| entry_step_name := "double_exercise"; entry_input := "def double(x:";
              entry_source := "editor" |} PyNone
           {[ "double" := PyFunc learner_double ]}
           double_with_printed_one (PyBool true) [] [] printed_one).
  - reflexivity.
  - reflexivity.
  - vm_compute. reflexivity.
  - reflexivity.
  - constructor.
  - reflexivity.
  - vm_compute. reflexivity.
Defined.

Lemma no_recheck_when_flags_differ_witness :
  check_with_messages hello_editor_only (typed "prin(1)")
  = (trace (run_check hello_editor_only (typed "prin(1)")), Ok (PyBool false)).
Proof.
  apply (no_recheck_when_flags_differ hello_editor_only (typed "prin(1)") PyNone).
  - reflexivity.
  - vm_compute. reflexivity.
  - intros m Hm. apply list_elem_of_singleton in Hm as ->. reflexivity.
Defined.

Lemma case_insensitive_recheck_fires_witness :
  fires (PyBool false) (typed hello_lowercase) hello.
Proof.
  apply (case_insensitive_recheck_fires hello (typed hello_lowercase) (PyBool false)).
  - reflexivity.
  - reflexivity.
  - vm_compute. reflexivity.
Defined.

Lemma tree_matches_outcomes_witness :
  outcome (tree_matches (typed "prin(1)") (program hello)) = Ok PyNone ∧
  outcome (tree_matches (typed "print(1)") "print(") = Raise SyntaxError.
Proof.
  split.
  - destruct (tree_matches_outcomes (typed "prin(1)") (program hello))
      as (_ & _ & _ & Hnone & _).
    erewrite Hnone; reflexivity.
  - destruct (tree_matches_outcomes (typed "print(1)") "print(") as (Hfault & _).
    erewrite Hfault; reflexivity.
Defined.

Lemma signatures_equal_iff_names_equal_witness :
  outcome (basic_signature (Plain learner_double) false)
    = outcome (basic_signature (Bound double) false) ∧
  outcome (basic_signature (Plain learner_double_two) false)
    ≠ outcome (basic_signature (Bound double) false).
Proof.
  split.
  - apply (signatures_equal_iff_names_equal learner_double double);
      [discriminate | repeat constructor .. | reflexivity].
  - intros Heq.
    apply (signatures_equal_iff_names_equal learner_double_two double) in Heq;
      [discriminate | discriminate | repeat constructor ..].
Defined.

Lemma test_values_named_by_arguments_witness :
  ∃ values,
    outcome (test_values double_exercise) = Ok values ∧
    values.*2 = [PyInt 6] ∧
    Forall2 (λ test value,
       match positional_inputs test.1 with
       | None => test.1 = InputsDict value.1
       | Some l => value.1.*1 = ["x"] ∧ value.1.*2 = l
       end) (tests double_exercise) values.
Proof.
  destruct (outcome (test_values double_exercise)) as [values|e] eqn:Hvalues;
    [| vm_compute in Hvalues; discriminate].
  exists values. split; [reflexivity |].
  apply (test_values_named_by_arguments double_exercise double values eq_refl Hvalues).
Defined.

Lemma test_values_arity_fault_witness :
  outcome (test_values double_two_values) = Raise AssertionError.
Proof.
  apply (test_values_arity_fault double_two_values double
           (InputsTuple [PyInt 1; PyInt 2], PyInt 3) [PyInt 1; PyInt 2]).
  - reflexivity.
  - left.
  - reflexivity.
  - discriminate.
Defined.


Lemma normalization_requirements_witness :
  clean_step_class
    (ClassDecl (plain_attrs "untold" EmptyString "print(1)") [])
  = ([], Raise AssertionError).
Proof.
  apply (normalization_requirements (H := toy_collaborators) (H0 := toy_authoring));
    reflexivity.
Defined.


Lemma message_classes_of_normalized_step_witness :
  (∃ c : step_class,
     outcome (clean_step_class hello_decl) = Ok c ∧
     Forall (λ m, __name__ m = "inner_cls" ∧ after_success m = false ∧
                  dict_solution m = None) (messages c)) ∧
  (∃ c : step_class,
     outcome (clean_step_class praise_decl) = Ok c ∧
     Forall (λ m, after_success m = true ∧ check m = check praise) (messages c)).
Proof.
  split.
  - destruct (outcome (clean_step_class hello_decl)) as [c|e] eqn:Hc;
      [| vm_compute in Hc; discriminate].
    exists c. split; [reflexivity |].
    apply Forall_forall. intros m Hm.
    destruct (message_classes_of_normalized_step hello_decl c m Hc Hm)
      as (inner & Hin & _ & _ & Hname & _ & Hflag & _ & _ & _ & _ & Hsol & _).
    split; [exact Hname | split; [| exact Hsol]]. rewrite Hflag.
    simpl in Hin. apply elem_of_cons in Hin as [-> | Hin]; [reflexivity |].
    apply list_elem_of_singleton in Hin as ->. reflexivity.
  - destruct (outcome (clean_step_class praise_decl)) as [c|e] eqn:Hc;
      [| vm_compute in Hc; discriminate].
    exists c. split; [reflexivity |].
    apply Forall_forall. intros m Hm.
    destruct (message_classes_of_normalized_step praise_decl c m Hc Hm)
      as (inner & Hin & _ & _ & _ & _ & Hflag & Hcheck & _).
    simpl in Hin. apply list_elem_of_singleton in Hin as ->.
    rewrite Hflag, Hcheck. vm_compute in Hc. injection Hc as <-.
    split; reflexivity.
Defined.

Lemma page_build_records_witness :
  PageMeta_init "Page" None hello_body None = ([], Ok None) ∧
  ∃ built,
    outcome (PageMeta_init "HelloPage" None hello_body (Some "Done."))
      = Ok (Some built) ∧
    step_names built = ["hello"; "final_text"] ∧ slug built = "HelloPage".
Proof.
  split.
  - apply (page_build_records "Page" None hello_body None). reflexivity.
  - destruct (outcome (PageMeta_init "HelloPage" None hello_body (Some "Done.")))
      as [[built|]|e] eqn:Hbuilt; [| vm_compute in Hbuilt; discriminate ..].
    exists built. split; [reflexivity |].
    destruct (proj2 (proj2 (page_build_records "HelloPage" None hello_body
                              (Some "Done."))) built Hbuilt)
      as (Hnames & _ & _ & _ & Hslug).
    split; [exact Hnames | exact Hslug].
Defined.


Lemma pages_found_by_position_witness :
  index (register_all [hello_page; double_page]) double_page = ([], Ok 1) ∧
  outcome (next_page (register_all [hello_page; double_page]) double_page)
    = Raise (OtherError "IndexError") ∧
  outcome (previous_page (register_all [hello_page; double_page]) hello_page)
    = Ok double_page.
Proof.
  assert (NoDup (slug <$> [hello_page; double_page])) as Hnd.
  { apply (bool_decide_unpack _). vm_compute. exact I. }
  destruct (pages_found_by_position [hello_page; double_page] 1 double_page Hnd eq_refl)
    as (Hindex & Hnext & _).
  destruct (pages_found_by_position [hello_page; double_page] 0 hello_page Hnd eq_refl)
    as (_ & _ & Hprevious).
  split; [exact Hindex | split; [exact Hnext | exact Hprevious]].
Defined.

Lemma previous_of_next_witness :
  outcome (previous_page (register_all [hello_page; double_page]) double_page)
    = Ok hello_page.
Proof.
  apply (previous_of_next [hello_page; double_page] hello_page double_page).
  - apply (bool_decide_unpack _). vm_compute. exact I.
  - left.
  - vm_compute. reflexivity.
Defined.


Lemma function_tree_finds_the_definition_witness :
  function_tree repeat_exercise (typed "print(1)") = ([], Raise ValueError) ∧
  function_tree double_exercise (typed "x = 1")
    = ([EvParse "x = 1"], Raise AssertionError).
Proof.
  split.
  - apply (function_tree_finds_the_definition repeat_exercise (typed "print(1)")
             repeat_solution eq_refl). reflexivity.
  - destruct (function_tree_finds_the_definition double_exercise (typed "x = 1")
                double eq_refl) as [_ Hnamed].
    destruct Hnamed as (_ & Hnone & _); [discriminate |].
    apply (Hnone (toy_tree "x=1")).
    + reflexivity.
    + intros node Hnode. apply list_elem_of_singleton in Hnode as ->. discriminate.
Defined.

Lemma stmt_and_search_witness :
  stmt (typed EmptyString) = ([EvParse EmptyString], Raise (OtherError "IndexError")) ∧
  stmt (typed "print(1)") = ([EvParse "print(1)"], Ok (toy_tree "print(1)")) ∧
  search_ast (toy_tree "print(1)") (toy_tree "print(1)") = true.
Proof.
  destruct (stmt_and_search (typed EmptyString)) as (Hempty & _).
  destruct (stmt_and_search (typed "print(1)")) as (_ & Hfirst & _ & _ & Hsearch).
  split; [| split].
  - apply (Hempty (toy_tree EmptyString)); reflexivity.
  - apply (Hfirst (toy_tree "print(1)") (toy_tree "print(1)") []); reflexivity.
  - apply Hsearch; [left | reflexivity].
Defined.
